(** * calculator.py: the mortgage formulas and the arrow-key menu

    The two finance functions of [calculator.py] are written once, over the
    arithmetic they use, and read at two number types: exact rationals
    ([Q], the arithmetic the formulas are stated in) and IEEE binary64
    (the [float] the program runs on).  The affordable-price action is
    taken from the point where the prompts have been parsed, and what it
    prints is kept as a list of lines.  The menu loop is a step function
    over the keys that [readchar.readkey] delivers; what each pass draws
    on the screen depends only on the selected index and is left out. *)

From Stdlib Require Import ZArith QArith Qpower Qabs Qfield Lqa Lia Bool List.
From Stdlib Require Import String Ascii DecimalString.
From Stdlib Require Floats.
Import ListNotations.

(** ** What a Python call can do: return a value or raise *)

Inductive exn : Type :=
| ZeroDivisionError
| OverflowError.

Inductive result (A : Type) : Type :=
| Value (a : A)
| Raise (e : exn).
Arguments Value {A} a.
Arguments Raise {A} e.

Definition bind {A B : Type} (r : result A) (k : A -> result B) : result B :=
  match r with
  | Value a => k a
  | Raise e => Raise e
  end.

Notation "x <- r ;; k" := (bind r (fun x => k))
  (at level 61, r at next level, right associativity).

(** The finance functions return either a number or an error text
    ([float] or [str] in the source). *)
Inductive answer (T : Type) : Type :=
| Amount (x : T)
| ErrorText (s : string).
Arguments Amount {T} x.
Arguments ErrorText {T} s.

(** ** The arithmetic the source relies on

    [num_lit] is an [int] literal used as an operand ([0], [1], [12], [10]);
    [num_of_int] converts a run-time [int] operand and may raise;
    [/] raises on a zero divisor, [**] takes an [int] exponent. *)
Class PyNum (T : Type) : Type := {
  num_lit : Z -> T;
  num_of_int : Z -> result T;
  num_add : T -> T -> T;
  num_sub : T -> T -> T;
  num_mul : T -> T -> T;
  num_div : T -> T -> result T;
  num_pow : T -> Z -> result T;
  num_eqb : T -> T -> bool;
  num_ltb : T -> T -> bool;
  num_leb : T -> T -> bool
}.

Declare Scope py_scope.
Delimit Scope py_scope with py.
Abbreviation lit := num_lit (only parsing).
Infix "+" := num_add : py_scope.
Infix "-" := num_sub : py_scope.
Infix "*" := num_mul : py_scope.
Infix "/" := num_div : py_scope.
Infix "**" := num_pow (at level 30, right associativity) : py_scope.
Infix "=?" := num_eqb : py_scope.
Infix "<?" := num_ltb : py_scope.
Infix "<=?" := num_leb : py_scope.

Section Finance.
Context {T : Type} {num : PyNum T}.
Local Open Scope py_scope.

Definition calculate_mortgage_payment
    (principal annual_interest_rate : T) (loan_term_years : Z)
  : result (answer T) :=
  if principal <=? (lit 0) then
    Value (ErrorText "Error: Principal must be a positive number.")
  else if annual_interest_rate <? (lit 0) then
    Value (ErrorText "Error: Annual interest rate cannot be negative.")
  else if (loan_term_years <=? 0)%Z then
    Value (ErrorText "Error: Loan term in years must be a positive integer.")
  else
    monthly_interest_rate <- annual_interest_rate / (lit 12) ;;
    let total_payments := (loan_term_years * 12)%Z in
    if monthly_interest_rate =? (lit 0) then
      n <- num_of_int total_payments ;;
      monthly_payment <- principal / n ;;
      Value (Amount monthly_payment)
    else
      power_of_i <- ((lit 1) + monthly_interest_rate) ** total_payments ;;
      let numerator := monthly_interest_rate * power_of_i in
      let denominator := power_of_i - (lit 1) in
      ratio <- numerator / denominator ;;
      let monthly_payment := principal * ratio in
      Value (Amount monthly_payment).

Definition calculate_loan_amount
    (monthly_payment annual_interest_rate : T) (loan_term_years : Z)
  : result (answer T) :=
  if monthly_payment <=? (lit 0) then
    Value (ErrorText "Error: Monthly payment must be a positive number.")
  else if annual_interest_rate <? (lit 0) then
    Value (ErrorText "Error: Annual interest rate cannot be negative.")
  else if (loan_term_years <=? 0)%Z then
    Value (ErrorText "Error: Loan term in years must be a positive integer.")
  else
    monthly_interest_rate <- annual_interest_rate / (lit 12) ;;
    let total_payments := (loan_term_years * 12)%Z in
    if monthly_interest_rate =? (lit 0) then
      n <- num_of_int total_payments ;;
      Value (Amount (monthly_payment * n))
    else
      power_of_i <- ((lit 1) + monthly_interest_rate) ** total_payments ;;
      let numerator := power_of_i - (lit 1) in
      let denominator := monthly_interest_rate * power_of_i in
      ratio <- numerator / denominator ;;
      let principal_amount := monthly_payment * ratio in
      Value (Amount principal_amount).
End Finance.

(** ** Exact rational arithmetic *)

#[export] Instance rational : PyNum Q := {|
  num_lit := inject_Z;
  num_of_int := fun z => Value (inject_Z z);
  num_add := Qplus;
  num_sub := Qminus;
  num_mul := Qmult;
  num_div := fun x y =>
    if Qeq_bool y 0 then Raise ZeroDivisionError else Value (Qdiv x y);
  num_pow := fun x n =>
    if Qeq_bool x 0 && (n <? 0)%Z then Raise ZeroDivisionError
    else Value (Qpower x n);
  num_eqb := Qeq_bool;
  num_ltb := fun x y => negb (Qle_bool y x);
  num_leb := Qle_bool
|}.

(** ** IEEE binary64, the [float] of the running program

    Addition, subtraction, multiplication and the comparisons are the
    binary64 operations.  [x / y] raises [ZeroDivisionError] when [y] is
    zero.  An [int] operand is converted with rounding to nearest even and
    raises [OverflowError] when it is too large.  [x ** n] follows CPython's
    [float_pow] for an [int] exponent: the exponent is converted first, the
    special cases [x ** 0], NaN, infinite, zero and unit bases are answered
    directly, and the remaining finite case is the C library's [pow] (taken
    here as the correctly rounded power, from which a platform's [pow] can
    differ in the last bits; no statement below evaluates it) with
    [OverflowError] on overflow. *)
Module Binary64.
Import Floats.
Local Open Scope float_scope.

Definition of_Z (z : Z) : float :=
  SF2Prim (binary_normalize 53 1024 z 0 false).

Definition float_of_int (z : Z) : result float :=
  let x := of_Z z in
  if is_infinity x then Raise OverflowError else Value x.

Definition float_div (x y : float) : result float :=
  if y =? 0 then Raise ZeroDivisionError else Value (x / y).

(** The integer a finite float with an integral value stands for. *)
Definition integral_value (x : float) : Z :=
  match Prim2SF x with
  | S754_finite s m e =>
      let a := if (0 <=? e)%Z then (Z.pos m * 2 ^ e)%Z
               else (Z.pos m / 2 ^ (- e))%Z in
      if s then (- a)%Z else a
  | _ => 0%Z
  end.

(** [x ^ k] rounded once, for finite [x > 0] and an integer [k]. *)
Definition rounded_power (x : float) (k : Z) : float :=
  match Prim2SF x with
  | S754_finite _ m e =>
      let p := S754_finite false (m ^ Z.to_pos (Z.abs k)) (e * Z.abs k) in
      if (0 <=? k)%Z then
        SF2Prim (binary_normalize 53 1024 (Z.pos m ^ k) (e * k) false)
      else SF2Prim (SFdiv 53 1024 (S754_finite false 1 0) p)
  | _ => x
  end.

Definition float_pow (x : float) (n : Z) : result float :=
  iw <- float_of_int n ;;
  let k := integral_value iw in
  if iw =? 0 then Value 1
  else if is_nan x then Value x
  else if is_infinity x then
    Value (if 0 <? iw then (if Z.odd k then x else abs x)
           else (if Z.odd k && (x <? 0) then neg_zero else 0))
  else if x =? 0 then
    if iw <? 0 then Raise ZeroDivisionError
    else Value (if Z.odd k then x else 0)
  else
    let negate_result := (x <? 0) && Z.odd k in
    let iv := abs x in
    if iv =? 1 then Value (if negate_result then -1 else 1)
    else
      let ix := rounded_power iv k in
      if is_infinity ix then Raise OverflowError
      else Value (if negate_result then - ix else ix).

#[export] Instance binary64 : PyNum float := {|
  num_lit := of_Z;
  num_of_int := float_of_int;
  num_add := add;
  num_sub := sub;
  num_mul := mul;
  num_div := float_div;
  num_pow := float_pow;
  num_eqb := eqb;
  num_ltb := ltb;
  num_leb := leb
|}.
End Binary64.
Export (hints) Binary64.

(** ** The affordable-price action of [run_mortgage_calculator_app]

    What the action prints, from the values the prompts were parsed to:
    the desired payment, the deposit ([None] when the answer was left
    blank), the rate in percent and the term.  A number formatted into a
    line is kept as the number. *)
Inductive printed (T : Type) : Type :=
| Text (s : string)
| Money (label : string) (x : T)
| Percent (label : string) (x : T)
| Years (label : string) (n : Z)
| Failed (s : string)
| Unexpected (e : exn).
Arguments Text {T} s.
Arguments Money {T} label x.
Arguments Percent {T} label x.
Arguments Years {T} label n.
Arguments Failed {T} s.
Arguments Unexpected {T} e.

Definition newline : string := String (ascii_of_nat 10) "".
Definition rule : string := "-----------------------------------".
Definition ltv_warning : string :=
  "You may not be granted a mortgage as your LTV ratio is more than 90%".
Definition deposit_percentage_label : string := "Deposit Percentage:      ".

Section App.
Context {T : Type} {num : PyNum T}.
Local Open Scope py_scope.

Definition affordable_price_action
    (monthly_payment : T) (deposit : option T) (rate_percent : T)
    (term_years : Z) : list (printed T) :=
  let deposit_amount :=
    match deposit with Some d => d | None => lit 0 end in
  let body :=
    annual_rate <- rate_percent / lit 100 ;;
    principal_amount <-
      calculate_loan_amount monthly_payment annual_rate term_years ;;
    match principal_amount with
    | Amount principal_amount =>
        share <- deposit_amount / (principal_amount + deposit_amount) ;;
        let deposit_percentage := share * lit 100 in
        Value
          ([ Text (newline ++ "--- Calculation Result ---");
             Money "Desired Monthly Payment: " monthly_payment;
             Percent "Annual Interest Rate:    " (annual_rate * lit 100);
             Years "Loan Term:               " term_years;
             Money "Deposit Amount:          " deposit_amount;
             Percent deposit_percentage_label deposit_percentage;
             Text rule ]
           ++ (if deposit_percentage <? lit 10
               then [ Text ltv_warning; Text rule ] else [])
           ++ [ Money "Estimated House Price Could Afford (inc deposit): "
                  (principal_amount + deposit_amount);
                Money "Consisting of Deposit: " deposit_amount;
                Money "Total House Price (affordable): " principal_amount;
                Text (rule ++ newline) ])
    | ErrorText message => Value [ Failed message ]
    end in
  match body with
  | Value lines => lines
  | Raise e => [ Unexpected e ]
  end.
End App.

(** ** The menu loop of [display_menu_and_get_selection]

    [readchar.readkey] delivers a key as a string; the five named keys are
    constants of the [readchar] package. *)
Inductive menu_state : Type :=
| Showing (selected_index : Z)
| Returned (choice : Z)
| Crashed (e : exn).

(** Python's [%] on [int]. *)
Definition int_mod (a n : Z) : result Z :=
  if (n =? 0)%Z then Raise ZeroDivisionError else Value (a mod n)%Z.

Section Menu.
Variables UP DOWN ENTER ESC CTRL_C : string.
Local Open Scope string_scope.

(** One pass of the [match key] statement. *)
Definition on_key (num_options selected_index : Z) (key : string)
  : menu_state :=
  if key =? UP then
    match int_mod (selected_index - 1) num_options with
    | Value i => Showing i
    | Raise e => Crashed e
    end
  else if key =? DOWN then
    match int_mod (selected_index + 1) num_options with
    | Value i => Showing i
    | Raise e => Crashed e
    end
  else if (key =? ENTER) || (key =? " ") then Returned selected_index
  else if (key =? ESC) || (key =? CTRL_C) then Returned (-1)
  else Showing selected_index.

(** The [while True] loop over the keys pressed so far. *)
Fixpoint menu_loop (num_options selected_index : Z) (keys : list string)
  : menu_state :=
  match keys with
  | [] => Showing selected_index
  | key :: rest =>
      match on_key num_options selected_index key with
      | Showing i => menu_loop num_options i rest
      | stopped => stopped
      end
  end.

Definition display_menu_and_get_selection
    (options : list string) (keys : list string) : menu_state :=
  let selected_index := 0%Z in
  let num_options := Z.of_nat (List.length options) in
  menu_loop num_options selected_index keys.

(** The named keys are told apart by the [match] as written only when
    no later pattern equals an earlier one. *)
Definition keys_distinct : bool :=
  negb (UP =? DOWN)
  && negb (ENTER =? UP) && negb (ENTER =? DOWN)
  && negb (" " =? UP) && negb (" " =? DOWN)
  && negb (ESC =? UP) && negb (ESC =? DOWN)
  && negb (ESC =? ENTER) && negb (ESC =? " ")
  && negb (CTRL_C =? UP) && negb (CTRL_C =? DOWN)
  && negb (CTRL_C =? ENTER) && negb (CTRL_C =? " ").

Definition other_key (key : string) : bool :=
  negb (key =? UP) && negb (key =? DOWN) && negb (key =? ENTER)
  && negb (key =? " ") && negb (key =? ESC) && negb (key =? CTRL_C).
End Menu.

(** A concrete key table: the strings a POSIX terminal sends for the
    named keys (escape sequences for the arrows, line feed, escape and
    end-of-text). *)
Module PosixKeys.
Definition esc : ascii := ascii_of_nat 27.
Definition UP : string := String esc "[A".
Definition DOWN : string := String esc "[B".
Definition ENTER : string := String (ascii_of_nat 10) "".
Definition ESC : string := String esc "".
Definition CTRL_C : string := String (ascii_of_nat 3) "".
End PosixKeys.

Definition menu_options : list string :=
  [ "Calculate Monthly Mortgage Payment (M)";
    "Calculate Affordable House Price (P)";
    "Exit" ]%string.

(** ** Names used in the statements *)

(** The four error texts of the finance functions. *)
Definition principal_invalid : string :=
  "Error: Principal must be a positive number.".
Definition payment_invalid : string :=
  "Error: Monthly payment must be a positive number.".
Definition rate_invalid : string :=
  "Error: Annual interest rate cannot be negative.".
Definition term_invalid : string :=
  "Error: Loan term in years must be a positive integer.".

(** The monthly rate [i] and the growth factor [(1 + i) ^ n] in exact
    arithmetic. *)
Definition monthly_rate (annual_rate : Q) : Q := (annual_rate / 12)%Q.
Definition growth (annual_rate : Q) (term_years : Z) : Q :=
  ((1 + monthly_rate annual_rate) ^ (term_years * 12))%Q.

(** The sum [x + x^2 + ... + x^n]: with [x = 1 / (1 + i)] it is what [n]
    payments of 1 are worth today, and the payment formula is the principal
    divided by it. *)
Fixpoint annuity_factor (x : Q) (n : nat) : Q :=
  match n with
  | O => 0%Q
  | S k => (x * (1 + annuity_factor x k))%Q
  end.

(** The discount factor of one month, [1 / (1 + i)], and the number of
    monthly payments. *)
Definition discount (annual_rate : Q) : Q := (/ (1 + annual_rate / 12))%Q.
Definition payments (term_years : Z) : nat := Z.to_nat (term_years * 12).

(** ** The monthly-payment action of [run_mortgage_calculator_app]

    What the action prints, from the values the prompts were parsed to. *)
Section PaymentAction.
Context {T : Type} {num : PyNum T}.
Local Open Scope py_scope.

Definition monthly_payment_action
    (principal rate_percent : T) (term_years : Z) : list (printed T) :=
  let body :=
    annual_rate <- rate_percent / lit 100 ;;
    monthly_payment <-
      calculate_mortgage_payment principal annual_rate term_years ;;
    match monthly_payment with
    | Amount monthly_payment =>
        Value
          [ Text (newline ++ "--- Calculation Result ---");
            Money "Loan Amount:             " principal;
            Percent "Annual Interest Rate:    " (annual_rate * lit 100);
            Years "Loan Term:               " term_years;
            Text rule;
            Money "Estimated Monthly Payment: " monthly_payment;
            Text (rule ++ newline) ]
    | ErrorText message => Value [ Failed message ]
    end in
  match body with
  | Value lines => lines
  | Raise e => [ Unexpected e ]
  end.
End PaymentAction.

(** The text a [Failed] line shows: the f-string around the returned
    message. *)
Definition failed_line (message : string) : string :=
  (newline ++ "Error: " ++ message ++ newline)%string.

(** ** The choice of action in [run_mortgage_calculator_app] *)

(** [str.lower] on ASCII text. *)
Definition lower_ascii (c : ascii) : ascii :=
  let n := nat_of_ascii c in
  if (65 <=? n)%nat && (n <=? 90)%nat then ascii_of_nat (n + 32) else c.

Fixpoint lower (s : string) : string :=
  match s with
  | EmptyString => EmptyString
  | String c rest => String (lower_ascii c) (lower rest)
  end.

(** Python's [l[i]]: negative indices count from the end, [None] stands
    for [IndexError]. *)
Definition list_index {A : Type} (l : list A) (i : Z) : option A :=
  let n := Z.of_nat (List.length l) in
  if (0 <=? i)%Z then nth_error l (Z.to_nat i)
  else if (- n <=? i)%Z then nth_error l (Z.to_nat (n + i))
  else None.

Inductive branch : Type :=
| ExitApp
| PaymentBranch
| AffordableBranch
| InvalidSelection.

(** The [if]/[elif] chain on the menu's result; [None] stands for the
    [IndexError] of [menu_options[selected_choice_index]]. *)
Definition choose_branch (options : list string)
    (selected_choice_index : Z) : option branch :=
  if (selected_choice_index =? -1)%Z then Some ExitApp
  else
    match list_index options selected_choice_index with
    | None => None
    | Some text =>
        if (lower text =? "exit")%string then Some ExitApp
        else if (selected_choice_index =? 0)%Z then Some PaymentBranch
        else if (selected_choice_index =? 1)%Z then Some AffordableBranch
        else Some InvalidSelection
    end.

(** ** The option lines one pass of the menu loop draws *)

(** [str(n)] for a natural number. *)
Definition decimal (n : nat) : string :=
  DecimalString.NilEmpty.string_of_uint (Nat.to_uint n).

Definition option_line (selected_index : Z) (i : nat) (option : string)
  : string :=
  if (Z.of_nat i =? selected_index)%Z
  then ("> [" ++ decimal (i + 1) ++ "] " ++ option ++ " <")%string
  else ("  [" ++ decimal (i + 1) ++ "] " ++ option)%string.

(** The [for i, option in enumerate(options)] loop, from index [i]. *)
Fixpoint option_lines_from (selected_index : Z) (i : nat)
    (options : list string) : list string :=
  match options with
  | [] => []
  | option :: rest =>
      option_line selected_index i option
      :: option_lines_from selected_index (S i) rest
  end.

Definition option_lines (options : list string) (selected_index : Z)
  : list string :=
  option_lines_from selected_index 0 options.

(** A drawn line carries the highlight when it starts with the marker. *)
Definition highlighted (line : string) : bool := String.prefix "> [" line.

(** * Exact arithmetic: reading the tests and the guarded operations *)

Section ExactFacts.
Local Open Scope Q_scope.

Lemma exact_leb_true (x y : Q) : num_leb x y = true <-> x <= y.
Proof. apply Qle_bool_iff. Qed.

Lemma exact_leb_false (x y : Q) : num_leb x y = false <-> y < x.
Proof.
  cbn. split; intro H.
  - apply Qnot_le_lt. intro L. apply Qle_bool_iff in L. congruence.
  - destruct (Qle_bool x y) eqn:E; [|reflexivity].
    apply Qle_bool_iff in E. exfalso. apply (Qlt_not_le _ _ H E).
Qed.

Lemma exact_ltb_true (x y : Q) : num_ltb x y = true <-> x < y.
Proof.
  cbn. rewrite negb_true_iff. apply exact_leb_false.
Qed.

Lemma exact_ltb_false (x y : Q) : num_ltb x y = false <-> y <= x.
Proof.
  cbn. rewrite negb_false_iff. apply Qle_bool_iff.
Qed.

Lemma exact_eqb_true (x y : Q) : num_eqb x y = true <-> x == y.
Proof. apply Qeq_bool_iff. Qed.

Lemma exact_eqb_false (x y : Q) : num_eqb x y = false <-> ~ x == y.
Proof.
  cbn. split; intro H.
  - intro E. apply Qeq_bool_iff in E. congruence.
  - destruct (Qeq_bool x y) eqn:E; [|reflexivity].
    apply Qeq_bool_iff in E. contradiction.
Qed.

Lemma exact_div_value (x y : Q) : ~ y == 0 -> num_div x y = Value (x / y).
Proof.
  intro H. cbn. apply (exact_eqb_false y 0) in H. cbn in H.
  rewrite H. reflexivity.
Qed.

Lemma exact_div_raise (x y : Q) :
  y == 0 -> num_div x y = Raise ZeroDivisionError.
Proof.
  intro H. cbn. apply Qeq_bool_iff in H. rewrite H. reflexivity.
Qed.

Lemma exact_pow_value (x : Q) (n : Z) :
  (0 <= n)%Z -> num_pow x n = Value (x ^ n).
Proof.
  intro H. cbn. apply Z.ltb_ge in H. rewrite H, andb_false_r. reflexivity.
Qed.

Lemma monthly_rate_zero (r : Q) : monthly_rate r == 0 <-> r == 0.
Proof.
  unfold monthly_rate. split; intro H.
  - setoid_replace r with (r / 12 * 12) by (field). rewrite H. reflexivity.
  - rewrite H. reflexivity.
Qed.

Lemma monthly_rate_pos (r : Q) : 0 < r -> 0 < monthly_rate r.
Proof.
  intro H. unfold monthly_rate. apply Qlt_shift_div_l; [reflexivity|].
  rewrite Qmult_0_l. exact H.
Qed.

Lemma growth_above_one (r : Q) (t : Z) :
  0 < r -> (0 < t)%Z -> 1 < growth r t.
Proof.
  intros Hr Ht. unfold growth. apply Qpower_1_lt; [|lia].
  pose proof (monthly_rate_pos r Hr). lra.
Qed.
End ExactFacts.

(** * The finance functions on valid inputs, in exact arithmetic *)

Section ExactFinance.
Local Open Scope Q_scope.

Ltac step_bind := cbv beta iota delta [bind].

Lemma twelve_not_zero : ~ (num_lit 12 : Q) == 0.
Proof. intro H. discriminate H. Qed.

Lemma hundred_not_zero : ~ (num_lit 100 : Q) == 0.
Proof. intro H. discriminate H. Qed.

Lemma checks_pass (x r : Q) (t : Z) :
  0 < x -> 0 <= r -> (0 < t)%Z ->
  num_leb x (num_lit 0) = false /\ num_ltb r (num_lit 0) = false
  /\ (t <=? 0)%Z = false.
Proof.
  intros Hx Hr Ht. split; [|split].
  - apply exact_leb_false. exact Hx.
  - apply exact_ltb_false. exact Hr.
  - apply Z.leb_gt. exact Ht.
Qed.

Lemma growth_denominator_pos (r : Q) (t : Z) :
  0 < r -> (0 < t)%Z -> 0 < growth r t - 1.
Proof. intros Hr Ht. pose proof (growth_above_one r t Hr Ht). lra. Qed.

Lemma growth_rate_product_pos (r : Q) (t : Z) :
  0 < r -> (0 < t)%Z -> 0 < monthly_rate r * growth r t.
Proof.
  intros Hr Ht. apply Qmult_lt_0_compat.
  - apply monthly_rate_pos, Hr.
  - pose proof (growth_above_one r t Hr Ht). lra.
Qed.

Lemma payment_zero_rate (P r : Q) (t : Z) :
  0 < P -> r == 0 -> (0 < t)%Z ->
  calculate_mortgage_payment P r t
  = Value (Amount (P / inject_Z (t * 12))).
Proof.
  intros HP Hr Ht.
  assert (Hr0 : 0 <= r) by (rewrite Hr; apply Qle_refl).
  destruct (checks_pass P r t HP Hr0 Ht) as (E1 & E2 & E3).
  unfold calculate_mortgage_payment. rewrite E1, E2, E3.
  rewrite (exact_div_value r _ twelve_not_zero). step_bind.
  assert (E4 : num_eqb (r / num_lit 12) (num_lit 0) = true).
  { apply exact_eqb_true. apply (monthly_rate_zero r), Hr. }
  rewrite E4.
  change (num_of_int (t * 12)%Z) with (Value (inject_Z (t * 12))).
  step_bind. rewrite exact_div_value; [reflexivity|].
  intro H. unfold Qeq in H. cbn in H. lia.
Qed.

Lemma payment_positive_rate (P r : Q) (t : Z) :
  0 < P -> 0 < r -> (0 < t)%Z ->
  calculate_mortgage_payment P r t
  = Value (Amount
      (P * (monthly_rate r * growth r t / (growth r t - 1)))).
Proof.
  intros HP Hr Ht.
  destruct (checks_pass P r t HP (Qlt_le_weak _ _ Hr) Ht) as (E1 & E2 & E3).
  unfold calculate_mortgage_payment. rewrite E1, E2, E3.
  rewrite (exact_div_value r _ twelve_not_zero). step_bind.
  assert (E4 : num_eqb (r / num_lit 12) (num_lit 0) = false).
  { apply exact_eqb_false. intro H. apply (monthly_rate_zero r) in H.
    rewrite H in Hr. discriminate Hr. }
  rewrite E4. rewrite exact_pow_value by lia. step_bind.
  rewrite exact_div_value; [reflexivity|].
  pose proof (growth_denominator_pos r t Hr Ht) as D.
  intro H. change (growth r t - 1 == 0) in H. rewrite H in D.
  discriminate D.
Qed.

Lemma loan_zero_rate (M r : Q) (t : Z) :
  0 < M -> r == 0 -> (0 < t)%Z ->
  calculate_loan_amount M r t = Value (Amount (M * inject_Z (t * 12))).
Proof.
  intros HM Hr Ht.
  assert (Hr0 : 0 <= r) by (rewrite Hr; apply Qle_refl).
  destruct (checks_pass M r t HM Hr0 Ht) as (E1 & E2 & E3).
  unfold calculate_loan_amount. rewrite E1, E2, E3.
  rewrite (exact_div_value r _ twelve_not_zero). step_bind.
  assert (E4 : num_eqb (r / num_lit 12) (num_lit 0) = true).
  { apply exact_eqb_true. apply (monthly_rate_zero r), Hr. }
  rewrite E4. reflexivity.
Qed.

Lemma loan_positive_rate (M r : Q) (t : Z) :
  0 < M -> 0 < r -> (0 < t)%Z ->
  calculate_loan_amount M r t
  = Value (Amount
      (M * ((growth r t - 1) / (monthly_rate r * growth r t)))).
Proof.
  intros HM Hr Ht.
  destruct (checks_pass M r t HM (Qlt_le_weak _ _ Hr) Ht) as (E1 & E2 & E3).
  unfold calculate_loan_amount. rewrite E1, E2, E3.
  rewrite (exact_div_value r _ twelve_not_zero). step_bind.
  assert (E4 : num_eqb (r / num_lit 12) (num_lit 0) = false).
  { apply exact_eqb_false. intro H. apply (monthly_rate_zero r) in H.
    rewrite H in Hr. discriminate Hr. }
  rewrite E4. rewrite exact_pow_value by lia. step_bind.
  rewrite exact_div_value; [reflexivity|].
  pose proof (growth_rate_product_pos r t Hr Ht) as D.
  intro H. change (monthly_rate r * growth r t == 0) in H. rewrite H in D.
  discriminate D.
Qed.
End ExactFinance.

(** * The payment formula *)

Section PaymentFormula.
Local Open Scope Q_scope.

Lemma payment_value_positive (P r : Q) (t : Z) :
  0 < P -> 0 < r -> (0 < t)%Z ->
  0 < P * (monthly_rate r * growth r t / (growth r t - 1)).
Proof.
  intros HP Hr Ht. apply Qmult_lt_0_compat; [exact HP|].
  apply Qlt_shift_div_l.
  - apply growth_denominator_pos; assumption.
  - rewrite Qmult_0_l. apply growth_rate_product_pos; assumption.
Qed.

Lemma straight_line_positive (P : Q) (t : Z) :
  0 < P -> (0 < t)%Z -> 0 < P / inject_Z (t * 12).
Proof.
  intros HP Ht. apply Qlt_shift_div_l.
  - unfold Qlt. cbn. lia.
  - rewrite Qmult_0_l. exact HP.
Qed.

Lemma rate_zero_or_positive (r : Q) : 0 <= r -> r == 0 \/ 0 < r.
Proof.
  intro H. destruct (Qeq_dec r 0) as [E|N]; [left; exact E|right].
  apply Qle_lteq in H. destruct H as [L|E]; [exact L|].
  exfalso. apply N. symmetry. exact E.
Qed.
End PaymentFormula.

Section FormulaOnAnyArithmetic.
Context {T : Type} {num : PyNum T}.

(** A number that is returned went through the operations of the formula. *)
Lemma returned_payment_is_formula (P r : T) (t : Z) (m : T) :
  calculate_mortgage_payment P r t = Value (Amount m) ->
  exists i,
    num_div r (lit 12) = Value i
    /\ (num_eqb i (lit 0) = false ->
        exists g q,
          num_pow (num_add (lit 1) i) (t * 12) = Value g
          /\ num_div (num_mul i g) (num_sub g (lit 1)) = Value q
          /\ m = num_mul P q).
Proof.
  unfold calculate_mortgage_payment.
  destruct (num_leb P (lit 0)); [discriminate|].
  destruct (num_ltb r (lit 0)); [discriminate|].
  destruct (t <=? 0)%Z; [discriminate|].
  destruct (num_div r (lit 12)) as [i|e]; cbn [bind]; [|discriminate].
  intro H. exists i. split; [reflexivity|]. intro E. rewrite E in H.
  destruct (num_pow (num_add (lit 1) i) (t * 12)) as [g|e] eqn:G;
    cbn [bind] in H; [|discriminate].
  destruct (num_div (num_mul i g) (num_sub g (lit 1))) as [q|e] eqn:D;
    cbn [bind] in H; [|discriminate].
  exists g, q. injection H as <-. split; [reflexivity|]. split;
    [exact D | reflexivity].
Qed.

(** Past the checks, with a monthly rate that tests equal to zero, both
    functions are their zero-rate branch. *)
Lemma zero_rate_branch (x r i : T) (t : Z) :
  num_leb x (lit 0) = false -> num_ltb r (lit 0) = false -> (0 < t)%Z ->
  num_div r (lit 12) = Value i -> num_eqb i (lit 0) = true ->
  calculate_mortgage_payment x r t
  = (n <- num_of_int (t * 12) ;; q <- num_div x n ;; Value (Amount q))
  /\ calculate_loan_amount x r t
     = (n <- num_of_int (t * 12) ;; Value (Amount (num_mul x n))).
Proof.
  intros E1 E2 Ht Hi Hz. apply Z.leb_gt in Ht.
  unfold calculate_mortgage_payment, calculate_loan_amount.
  rewrite E1, E2, Ht, Hi. cbn [bind]. rewrite Hz. split; reflexivity.
Qed.
End FormulaOnAnyArithmetic.

(** C1, as the code has it.  On any arithmetic, a number that the function
    returns at a monthly rate [i = annualRate / 12] that is not zero is
    [principal * ((i * g) / (g - 1))] with [g = (1 + i) ** n] and
    [n = termYears * 12], each operation evaluated in that arithmetic.  In
    exact arithmetic, with a positive principal, a positive annual rate
    and a positive term, the function does return a number, and it equals
    [principal * (i * (1 + i) ^ n) / ((1 + i) ^ n - 1)]. *)
Theorem payment_is_annuity_formula :
  (forall (T : Type) (num : PyNum T) (principal annualRate : T)
          (termYears : Z) (m : T),
     calculate_mortgage_payment principal annualRate termYears
     = Value (Amount m) ->
     exists i,
       num_div annualRate (lit 12) = Value i
       /\ (num_eqb i (lit 0) = false ->
           exists g q,
             num_pow (num_add (lit 1) i) (termYears * 12) = Value g
             /\ num_div (num_mul i g) (num_sub g (lit 1)) = Value q
             /\ m = num_mul principal q))
  /\ (forall (principal annualRate : Q) (termYears : Z),
        (0 < principal)%Q -> (0 < annualRate)%Q -> (0 < termYears)%Z ->
        let i := (annualRate / 12)%Q in
        let n := (termYears * 12)%Z in
        exists m : Q,
          calculate_mortgage_payment principal annualRate termYears
          = Value (Amount m)
          /\ (m == principal * (i * (1 + i) ^ n) / ((1 + i) ^ n - 1))%Q).
Proof.
  split.
  - intros T num principal annualRate termYears m.
    apply returned_payment_is_formula.
  - intros principal annualRate termYears HP Hr Ht i n.
    rewrite (payment_positive_rate _ _ _ HP Hr Ht).
    eexists. split; [reflexivity|].
    pose proof (growth_denominator_pos annualRate termYears Hr Ht) as D.
    unfold growth, monthly_rate in *. subst i n.
    set (g := ((1 + annualRate / 12) ^ (termYears * 12))%Q) in *.
    field. intro H. lra.
Qed.

Lemma payment_is_annuity_formula_witness :
  exists m : Q,
    calculate_mortgage_payment (200000 # 1) (45 # 1000) 25 = Value (Amount m)
    /\ (m == (200000 # 1)
             * ((45 # 1000) / 12 * (1 + (45 # 1000) / 12) ^ (25 * 12))
             / ((1 + (45 # 1000) / 12) ^ (25 * 12) - 1))%Q.
Proof.
  exact (proj2 payment_is_annuity_formula (200000 # 1) (45 # 1000) 25%Z
           eq_refl eq_refl eq_refl).
Defined.

(** C2.  Over exact rational arithmetic the loan amount computed from a
    computed payment is the principal again: for [P > 0], [r >= 0] and
    [t > 0], with [M = calculate_mortgage_payment P r t], the call
    [calculate_loan_amount M r t] returns a number equal to [P]. *)
Theorem loan_amount_inverts_payment (P r : Q) (t : Z) :
  (0 < P)%Q -> (0 <= r)%Q -> (0 < t)%Z ->
  exists M P' : Q,
    calculate_mortgage_payment P r t = Value (Amount M)
    /\ calculate_loan_amount M r t = Value (Amount P')
    /\ (P' == P)%Q.
Proof.
  intros HP Hr Ht. destruct (rate_zero_or_positive r Hr) as [Z0|Pos].
  - exists (P / inject_Z (t * 12))%Q, (P / inject_Z (t * 12) * inject_Z (t * 12))%Q.
    split; [apply payment_zero_rate; assumption|]. split.
    + apply loan_zero_rate; [apply straight_line_positive| |]; assumption.
    + field. intro H. unfold Qeq in H. cbn in H. lia.
  - pose proof (growth_denominator_pos r t Pos Ht) as D.
    pose proof (growth_rate_product_pos r t Pos Ht) as N.
    pose proof (monthly_rate_pos r Pos) as I.
    pose proof (growth_above_one r t Pos Ht) as G.
    eexists. eexists.
    split; [apply payment_positive_rate; assumption|]. split.
    + apply loan_positive_rate; [apply payment_value_positive| |]; assumption.
    + set (g := growth r t) in *. set (i := monthly_rate r) in *.
      field. repeat split; intro H; lra.
Qed.

Lemma loan_amount_inverts_payment_witness :
  exists M P' : Q,
    calculate_mortgage_payment (200000 # 1) (45 # 1000) 25 = Value (Amount M)
    /\ calculate_loan_amount M (45 # 1000) 25 = Value (Amount P')
    /\ (P' == 200000 # 1)%Q.
Proof.
  apply (loan_amount_inverts_payment (200000 # 1) (45 # 1000) 25).
  - reflexivity.
  - apply Qle_bool_imp_le. reflexivity.
  - reflexivity.
Defined.

(** C4, as the code has it.  At a zero rate both functions are their
    zero-rate branch on any arithmetic: the payment is [P / (t * 12)] and
    the loan amount [M * (t * 12)] as that arithmetic evaluates them.  On
    binary64 that is the float quotient or product, or [OverflowError]
    when [t * 12] is too large to convert; in exact arithmetic it is
    exactly the number [P / (t * 12)], respectively [M * (t * 12)]. *)
Theorem zero_rate_is_straight_line :
  (forall (T : Type) (num : PyNum T) (x r i : T) (t : Z),
     num_leb x (lit 0) = false -> num_ltb r (lit 0) = false -> (0 < t)%Z ->
     num_div r (lit 12) = Value i -> num_eqb i (lit 0) = true ->
     calculate_mortgage_payment x r t
     = (n <- num_of_int (t * 12) ;; q <- num_div x n ;; Value (Amount q))
     /\ calculate_loan_amount x r t
        = (n <- num_of_int (t * 12) ;; Value (Amount (num_mul x n))))
  /\ (forall (x : PrimFloat.float) (t : Z),
        num_leb x (lit 0) = false -> (0 < t)%Z ->
        calculate_mortgage_payment x PrimFloat.zero t
        = match Binary64.float_of_int (t * 12) with
          | Value n =>
              if PrimFloat.eqb n PrimFloat.zero then Raise ZeroDivisionError
              else Value (Amount (PrimFloat.div x n))
          | Raise e => Raise e
          end
        /\ calculate_loan_amount x PrimFloat.zero t
           = match Binary64.float_of_int (t * 12) with
             | Value n => Value (Amount (PrimFloat.mul x n))
             | Raise e => Raise e
             end)
  /\ (forall (P M r : Q) (t : Z),
        (r == 0)%Q -> (0 < t)%Z ->
        ((0 < P)%Q ->
           calculate_mortgage_payment P r t
           = Value (Amount (P / inject_Z (t * 12))%Q))
        /\ ((0 < M)%Q ->
           calculate_loan_amount M r t
           = Value (Amount (M * inject_Z (t * 12))%Q))).
Proof.
  split; [|split].
  - intros T num x r i t. apply zero_rate_branch.
  - intros x t Hx Ht.
    destruct (zero_rate_branch x PrimFloat.zero PrimFloat.zero t Hx
                eq_refl Ht eq_refl eq_refl) as [EP EL].
    rewrite EP, EL.
    change (num_of_int (t * 12)) with (Binary64.float_of_int (t * 12)).
    destruct (Binary64.float_of_int (t * 12)) as [n|e]; cbn [bind];
      [|split; reflexivity].
    split; [|reflexivity].
    change (num_div x n) with (Binary64.float_div x n).
    unfold Binary64.float_div, PrimFloat.zero.
    match goal with
    | |- context [PrimFloat.eqb n ?z] => destruct (PrimFloat.eqb n z)
    end; reflexivity.
  - intros P M r t Hr Ht. split; intro H.
    + apply payment_zero_rate; assumption.
    + apply loan_zero_rate; assumption.
Qed.

Lemma zero_rate_is_straight_line_witness :
  calculate_mortgage_payment (120000 # 1) 0 10
  = Value (Amount ((120000 # 1) / inject_Z (10 * 12))%Q)
  /\ calculate_loan_amount (1000 # 1) 0 10
     = Value (Amount ((1000 # 1) * inject_Z (10 * 12))%Q).
Proof.
  destruct (proj2 (proj2 zero_rate_is_straight_line)
              (120000 # 1) (1000 # 1) 0 10%Z)
    as [HP HM]; [reflexivity | reflexivity |].
  split; [apply HP | apply HM]; reflexivity.
Defined.

(** C5, in exact arithmetic.  With a positive principal, a non-negative rate
    and a positive term the function returns a number, that number is
    positive, and at a non-zero rate the denominator [(1 + i) ^ n - 1] is
    positive. *)
Theorem payment_is_positive (P r : Q) (t : Z) :
  (0 < P)%Q -> (0 <= r)%Q -> (0 < t)%Z ->
  (exists m : Q,
     calculate_mortgage_payment P r t = Value (Amount m) /\ (0 < m)%Q)
  /\ (~ (r == 0)%Q -> (0 < (1 + r / 12) ^ (t * 12) - 1)%Q).
Proof.
  intros HP Hr Ht. destruct (rate_zero_or_positive r Hr) as [Z0|Pos].
  - split; [|intro N; contradiction].
    eexists. split; [apply payment_zero_rate; assumption|].
    apply straight_line_positive; assumption.
  - split; [|intros _; apply (growth_denominator_pos r t Pos Ht)].
    eexists. split; [apply payment_positive_rate; assumption|].
    apply payment_value_positive; assumption.
Qed.

Lemma payment_is_positive_witness :
  (exists m : Q,
     calculate_mortgage_payment (200000 # 1) (45 # 1000) 25
     = Value (Amount m) /\ (0 < m)%Q)
  /\ (~ (45 # 1000 == 0)%Q
      -> (0 < (1 + (45 # 1000) / 12) ^ (25 * 12) - 1)%Q).
Proof.
  apply (payment_is_positive (200000 # 1) (45 # 1000) 25).
  - reflexivity.
  - apply Qle_bool_imp_le. reflexivity.
  - reflexivity.
Defined.

(** C8, as the code computes it.  In exact arithmetic the payment for
    200000 at 4.5% over 25 years is within 0.01 of 1111.66. *)
Theorem scenario_payment_1111_66 :
  exists m : Q,
    calculate_mortgage_payment (200000 # 1) (45 # 1000) 25 = Value (Amount m)
    /\ (Qabs (m - (111166 # 100)) <= 1 # 100)%Q.
Proof.
  eexists. split; [vm_compute; reflexivity|].
  apply Qle_bool_imp_le. vm_compute. reflexivity.
Qed.

(** C8, as stated, fails: the same payment is further than 0.01 from
    1111.48. *)
Lemma scenario_payment_not_1111_48 :
  exists m : Q,
    calculate_mortgage_payment (200000 # 1) (45 # 1000) 25 = Value (Amount m)
    /\ ~ (Qabs (m - (111148 # 100)) <= 1 # 100)%Q.
Proof.
  eexists. split; [vm_compute; reflexivity|].
  intro H. apply Qle_bool_iff in H. vm_compute in H. discriminate H.
Qed.

(** * Validation *)

Section Validation.
Context {T : Type} {num : PyNum T}.

(** Past the three checks, neither function ends in an error text. *)
Lemma payment_past_checks (x r : T) (t : Z) :
  num_leb x (lit 0) = false -> num_ltb r (lit 0) = false ->
  (t <=? 0)%Z = false ->
  forall s, calculate_mortgage_payment x r t <> Value (ErrorText s).
Proof.
  intros E1 E2 E3 s. unfold calculate_mortgage_payment.
  rewrite E1, E2, E3.
  destruct (num_div r (lit 12)) as [i|e]; cbn [bind]; [|discriminate].
  destruct (num_eqb i (lit 0)).
  - destruct (num_of_int (t * 12)) as [n|e]; cbn [bind]; [|discriminate].
    destruct (num_div x n); cbn [bind]; discriminate.
  - destruct (num_pow _ _) as [g|e]; cbn [bind]; [|discriminate].
    destruct (num_div _ _); cbn [bind]; discriminate.
Qed.

Lemma loan_past_checks (x r : T) (t : Z) :
  num_leb x (lit 0) = false -> num_ltb r (lit 0) = false ->
  (t <=? 0)%Z = false ->
  forall s, calculate_loan_amount x r t <> Value (ErrorText s).
Proof.
  intros E1 E2 E3 s. unfold calculate_loan_amount.
  rewrite E1, E2, E3.
  destruct (num_div r (lit 12)) as [i|e]; cbn [bind]; [|discriminate].
  destruct (num_eqb i (lit 0)).
  - destruct (num_of_int (t * 12)) as [n|e]; cbn [bind]; discriminate.
  - destruct (num_pow _ _) as [g|e]; cbn [bind]; [|discriminate].
    destruct (num_div _ _); cbn [bind]; discriminate.
Qed.

(** The first failing check decides the error text. *)
Lemma checks_in_order (x r : T) (t : Z) :
  (num_leb x (lit 0) = true ->
     calculate_mortgage_payment x r t = Value (ErrorText principal_invalid)
     /\ calculate_loan_amount x r t = Value (ErrorText payment_invalid))
  /\ (num_leb x (lit 0) = false -> num_ltb r (lit 0) = true ->
     calculate_mortgage_payment x r t = Value (ErrorText rate_invalid)
     /\ calculate_loan_amount x r t = Value (ErrorText rate_invalid))
  /\ (num_leb x (lit 0) = false -> num_ltb r (lit 0) = false ->
      (t <=? 0)%Z = true ->
     calculate_mortgage_payment x r t = Value (ErrorText term_invalid)
     /\ calculate_loan_amount x r t = Value (ErrorText term_invalid)).
Proof.
  unfold calculate_mortgage_payment, calculate_loan_amount.
  repeat split; intros;
    repeat match goal with H : _ = _ |- _ => rewrite H; clear H end;
    reflexivity.
Qed.
End Validation.

(** C3, as the code has it.  For either function and either arithmetic, an
    error text is returned exactly when the first argument is [<= 0], the
    rate is [< 0] or the term is [<= 0]; the first failing check in that
    order decides the text, and the four texts differ.  When no check
    fails the result is not an error text, and in exact arithmetic it is a
    number. *)
Theorem validation_decides_failure :
  (forall (T : Type) (num : PyNum T) (x r : T) (t : Z),
     let failing :=
       num_leb x (lit 0) || num_ltb r (lit 0) || (t <=? 0)%Z in
     ((exists s, calculate_mortgage_payment x r t = Value (ErrorText s))
        <-> failing = true)
     /\ ((exists s, calculate_loan_amount x r t = Value (ErrorText s))
        <-> failing = true)
     /\ (num_leb x (lit 0) = true ->
         calculate_mortgage_payment x r t
         = Value (ErrorText principal_invalid)
         /\ calculate_loan_amount x r t = Value (ErrorText payment_invalid))
     /\ (num_leb x (lit 0) = false -> num_ltb r (lit 0) = true ->
         calculate_mortgage_payment x r t = Value (ErrorText rate_invalid)
         /\ calculate_loan_amount x r t = Value (ErrorText rate_invalid))
     /\ (num_leb x (lit 0) = false -> num_ltb r (lit 0) = false ->
         (t <=? 0)%Z = true ->
         calculate_mortgage_payment x r t = Value (ErrorText term_invalid)
         /\ calculate_loan_amount x r t = Value (ErrorText term_invalid)))
  /\ (principal_invalid <> rate_invalid /\ principal_invalid <> term_invalid
      /\ rate_invalid <> term_invalid /\ payment_invalid <> rate_invalid
      /\ payment_invalid <> term_invalid)
  /\ (forall (x r : Q) (t : Z),
        (0 < x)%Q -> (0 <= r)%Q -> (0 < t)%Z ->
        (exists m, calculate_mortgage_payment x r t = Value (Amount m))
        /\ (exists p, calculate_loan_amount x r t = Value (Amount p))).
Proof.
  split; [|split].
  - intros T num x r t failing.
    destruct (checks_in_order x r t) as (C1 & C2 & C3).
    pose proof (payment_past_checks x r t) as NP.
    pose proof (loan_past_checks x r t) as NL.
    subst failing.
    destruct (num_leb x (lit 0)) eqn:E1;
      [|destruct (num_ltb r (lit 0)) eqn:E2;
        [|destruct (t <=? 0)%Z eqn:E3]]; cbn [orb].
    + destruct (C1 eq_refl) as [P L].
      repeat split; try (intros; discriminate); eauto.
    + destruct (C2 eq_refl eq_refl) as [P L].
      repeat split; try (intros; discriminate); eauto.
    + destruct (C3 eq_refl eq_refl eq_refl) as [P L].
      repeat split; try (intros; discriminate); eauto.
    + repeat split; try (intros; discriminate).
      * intros [s H]. exfalso. exact (NP eq_refl eq_refl eq_refl s H).
      * intros [s H]. exfalso. exact (NL eq_refl eq_refl eq_refl s H).
  - repeat split; discriminate.
  - intros x r t Hx Hr Ht.
    destruct (rate_zero_or_positive r Hr) as [Z0|Pos]; split; eexists.
    + apply payment_zero_rate; assumption.
    + apply loan_zero_rate; assumption.
    + apply payment_positive_rate; assumption.
    + apply loan_positive_rate; assumption.
Qed.

Lemma validation_decides_failure_witness :
  calculate_mortgage_payment (- (1 # 1))%Q (5 # 100) 25
  = Value (ErrorText principal_invalid)
  /\ calculate_mortgage_payment (100000 # 1) (- (1 # 100))%Q 25
     = Value (ErrorText rate_invalid)
  /\ calculate_mortgage_payment (100000 # 1) (5 # 100) 0
     = Value (ErrorText term_invalid)
  /\ calculate_loan_amount 0%Q (5 # 100) 25
     = Value (ErrorText payment_invalid)
  /\ (exists m, calculate_mortgage_payment (100000 # 1) (5 # 100) 25
                = Value (Amount m)).
Proof.
  destruct validation_decides_failure as (G & _ & N).
  destruct (G Q rational (- (1 # 1))%Q (5 # 100) 25%Z) as (_ & _ & A & _).
  destruct (G Q rational (100000 # 1) (- (1 # 100))%Q 25%Z) as (_ & _ & _ & B & _).
  destruct (G Q rational (100000 # 1) (5 # 100) 0%Z) as (_ & _ & _ & _ & C).
  destruct (G Q rational 0%Q (5 # 100) 25%Z) as (_ & _ & D & _).
  destruct (N (100000 # 1) (5 # 100) 25%Z) as [E _];
    [reflexivity | apply Qle_bool_imp_le; reflexivity | reflexivity |].
  split; [|split; [|split; [|split]]].
  - exact (proj1 (A eq_refl)).
  - exact (proj1 (B eq_refl eq_refl)).
  - exact (proj1 (C eq_refl eq_refl eq_refl)).
  - exact (proj2 (D eq_refl)).
  - exact E.
Defined.

(** * The same functions in binary64 *)

Module Binary64Facts.
Import Floats.

(** C3, as stated, fails on binary64: with principal 1.0, annual rate
    1e-17 and a term of one year no check fails, [1 + rate / 12] rounds to
    1.0, the denominator is zero and the division raises; no number is
    returned. *)
Lemma tiny_rate_raises_binary64 :
  let rate := 0x1.70ef54646d497p-57%float in
  num_leb 1%float (lit 0) = false
  /\ num_ltb rate (lit 0) = false
  /\ (1 <=? 0)%Z = false
  /\ calculate_mortgage_payment 1%float rate 1 = Raise ZeroDivisionError.
Proof. vm_compute. repeat split. Qed.

(** C5, as stated, fails on binary64: the smallest positive principal at a
    zero rate over one year gives the payment 0.0, and a payment at the
    annual rate 1e-17 is no number at all. *)
Lemma payment_not_positive_binary64 :
  let tiny := 0x1p-1074%float in
  let rate := 0x1.70ef54646d497p-57%float in
  (num_ltb (lit 0) tiny = true
   /\ calculate_mortgage_payment tiny 0%float 1 = Value (Amount 0%float))
  /\ (num_ltb (lit 0) rate = true
      /\ calculate_mortgage_payment 200000%float rate 25
         = Raise ZeroDivisionError).
Proof. vm_compute. repeat split. Qed.

(** C2, as stated, fails on binary64: the payment for the smallest
    positive principal at a zero rate over one year is 0.0, and the loan
    amount computed from it is an error text, not a number near the
    principal. *)
Lemma round_trip_fails_binary64 :
  let tiny := 0x1p-1074%float in
  num_ltb (lit 0) tiny = true
  /\ calculate_mortgage_payment tiny 0%float 1 = Value (Amount 0%float)
  /\ calculate_loan_amount 0%float 0%float 1
     = Value (ErrorText payment_invalid).
Proof. vm_compute. repeat split. Qed.

(** C9, as stated, fails on binary64: for a payment of 1110, a rate entered
    as 1e-15 percent and 25 years, [calculate_loan_amount] succeeds with the
    principal 0.0, and with no deposit (or a deposit of 0.0) the division by
    [principal + deposit] raises. *)
Lemma deposit_division_faults_binary64 :
  let rate_percent := 0x1.203af9ee75616p-50%float in
  exists annual_rate,
    num_div rate_percent (lit 100) = Value annual_rate
    /\ calculate_loan_amount 1110%float annual_rate 25
       = Value (Amount 0%float)
    /\ affordable_price_action 1110%float None rate_percent 25
       = [ Unexpected ZeroDivisionError ]
    /\ affordable_price_action 1110%float (Some 0%float) rate_percent 25
       = [ Unexpected ZeroDivisionError ].
Proof.
  intro rate_percent. exists (rate_percent / Binary64.of_Z 100)%float.
  vm_compute. repeat split.
Qed.
End Binary64Facts.

(** * The affordable-price action *)

Section ActionFacts.
Context {T : Type} {num : PyNum T}.

Lemma warning_is_no_other_line :
  (newline ++ "--- Calculation Result ---" <> ltv_warning
   /\ rule <> ltv_warning /\ rule ++ newline <> ltv_warning)%string.
Proof. repeat split; discriminate. Qed.

(** The action once the loan amount is a number and the share is computed. *)
Lemma action_after_division
    (monthly_payment : T) (deposit : option T) (rate_percent : T)
    (term_years : Z) (annual_rate principal share : T) :
  num_div rate_percent (lit 100) = Value annual_rate ->
  calculate_loan_amount monthly_payment annual_rate term_years
  = Value (Amount principal) ->
  num_div (match deposit with Some d => d | None => lit 0 end)
    (num_add principal (match deposit with Some d => d | None => lit 0 end))
  = Value share ->
  exists before after,
    affordable_price_action monthly_payment deposit rate_percent term_years
    = before
      ++ Percent deposit_percentage_label (num_mul share (lit 100))
      :: Text rule
      :: (if num_ltb (num_mul share (lit 100)) (lit 10)
          then [ Text ltv_warning; Text rule ] else [])
      ++ after
    /\ ~ In (Text ltv_warning) before /\ ~ In (Text ltv_warning) after.
Proof.
  intros Hrate Hloan Hshare. unfold affordable_price_action.
  rewrite Hrate. cbn [bind]. rewrite Hloan. cbn [bind].
  rewrite Hshare. cbn [bind].
  eexists [_; _; _; _; _], [_; _; _; _]. split; [reflexivity|].
  split; cbn [In]; intros H; decompose [or] H; clear H;
    solve [discriminate | contradiction].
Qed.
End ActionFacts.

(** C7.  When the loan amount comes back as a number and the share
    [deposit / (principal + deposit)] is computed, the action prints the
    deposit percentage [share * 100], and it prints the loan-to-value
    warning exactly when that percentage is below 10. *)
Theorem low_deposit_warning
    (T : Type) (num : PyNum T)
    (monthly_payment : T) (deposit : option T) (rate_percent : T)
    (term_years : Z) (annual_rate principal share : T) :
  let deposit_amount := match deposit with Some d => d | None => lit 0 end in
  let deposit_percentage := num_mul share (lit 100) in
  let printed_lines :=
    affordable_price_action monthly_payment deposit rate_percent term_years in
  num_div rate_percent (lit 100) = Value annual_rate ->
  calculate_loan_amount monthly_payment annual_rate term_years
  = Value (Amount principal) ->
  num_div deposit_amount (num_add principal deposit_amount) = Value share ->
  In (Percent deposit_percentage_label deposit_percentage) printed_lines
  /\ (In (Text ltv_warning) printed_lines
      <-> num_ltb deposit_percentage (lit 10) = true).
Proof.
  intros deposit_amount deposit_percentage printed_lines Hrate Hloan Hshare.
  destruct (action_after_division _ _ _ _ _ _ _ Hrate Hloan Hshare)
    as (before & after & E & NB & NA).
  subst printed_lines deposit_percentage. rewrite E. split.
  - apply in_or_app. right. left. reflexivity.
  - destruct (num_ltb (num_mul share (lit 100)) (lit 10)); split; intro H.
    + reflexivity.
    + apply in_or_app. right. right. right. left. reflexivity.
    + exfalso. apply in_app_or in H. destruct H as [H|H]; [exact (NB H)|].
      cbn [In app] in H. destruct H as [H|[H|H]];
        [discriminate H | |exact (NA H)].
      destruct warning_is_no_other_line as (_ & W & _).
      apply W. congruence.
    + discriminate H.
Qed.

Lemma low_deposit_warning_witness :
  let annual_rate := ((45 # 10) / 100)%Q in
  let principal :=
    ((1110 # 1) * ((growth annual_rate 25 - 1)
                   / (monthly_rate annual_rate * growth annual_rate 25)))%Q in
  let share := ((20000 # 1) / (principal + (20000 # 1)))%Q in
  let printed_lines :=
    affordable_price_action (1110 # 1) (Some (20000 # 1)) (45 # 10) 25 in
  In (Percent deposit_percentage_label (share * 100)%Q) printed_lines
  /\ (In (Text ltv_warning) printed_lines
      <-> num_ltb (share * 100)%Q (lit 10) = true).
Proof.
  intros annual_rate principal share printed_lines.
  apply (low_deposit_warning Q rational (1110 # 1) (Some (20000 # 1)) (45 # 10)
           25 annual_rate principal share).
  - reflexivity.
  - vm_compute. reflexivity.
  - vm_compute. reflexivity.
Defined.

(** * The deposit-percentage division *)

Section DepositDivision.
Context {T : Type} {num : PyNum T}.

(** Without a number from [calculate_loan_amount] nothing is divided. *)
Lemma action_without_number
    (M : T) (deposit : option T) (rate_percent : T) (t : Z) (r : T) :
  num_div rate_percent (lit 100) = Value r ->
  (forall s, calculate_loan_amount M r t = Value (ErrorText s) ->
     affordable_price_action M deposit rate_percent t = [ Failed s ])
  /\ (forall e, calculate_loan_amount M r t = Raise e ->
     affordable_price_action M deposit rate_percent t = [ Unexpected e ]).
Proof.
  intro Hr. unfold affordable_price_action. rewrite Hr. cbn [bind].
  split; intros x H; rewrite H; reflexivity.
Qed.

(** With a number, the action ends in the handler exactly when the
    division raises. *)
Lemma action_with_number
    (M : T) (deposit : option T) (rate_percent : T) (t : Z) (r p : T) :
  num_div rate_percent (lit 100) = Value r ->
  calculate_loan_amount M r t = Value (Amount p) ->
  (forall e,
     num_div (match deposit with Some d => d | None => lit 0 end)
       (num_add p (match deposit with Some d => d | None => lit 0 end))
     = Raise e ->
     affordable_price_action M deposit rate_percent t = [ Unexpected e ])
  /\ (forall q,
     num_div (match deposit with Some d => d | None => lit 0 end)
       (num_add p (match deposit with Some d => d | None => lit 0 end))
     = Value q ->
     forall e,
       affordable_price_action M deposit rate_percent t <> [ Unexpected e ]).
Proof.
  intros Hr Hp. unfold affordable_price_action. rewrite Hr. cbn [bind].
  rewrite Hp. cbn [bind]. split.
  - intros e H. rewrite H. reflexivity.
  - intros q H e. rewrite H. cbn [bind app]. discriminate.
Qed.

(** A number is returned only past the check on the payment. *)
Lemma number_passed_payment_check (M r : T) (t : Z) (p : T) :
  calculate_loan_amount M r t = Value (Amount p) ->
  num_leb M (lit 0) = false.
Proof.
  intro H. destruct (checks_in_order M r t) as (C1 & _).
  destruct (num_leb M (lit 0)); [|reflexivity].
  destruct (C1 eq_refl) as [_ L]. congruence.
Qed.
End DepositDivision.

Section DepositDivisionExact.
Local Open Scope Q_scope.

(** A loan amount that is a number comes from inputs that passed the
    checks, and is positive. *)
Lemma loan_amount_number (M r : Q) (t : Z) (p : Q) :
  calculate_loan_amount M r t = Value (Amount p) ->
  0 < M /\ 0 <= r /\ (0 < t)%Z /\ 0 < p.
Proof.
  intro H. destruct (checks_in_order M r t) as (C1 & C2 & C3).
  destruct (num_leb M (lit 0)) eqn:E1.
  { destruct (C1 eq_refl) as [_ L]. congruence. }
  destruct (num_ltb r (lit 0)) eqn:E2.
  { destruct (C2 eq_refl eq_refl) as [_ L]. congruence. }
  destruct (t <=? 0)%Z eqn:E3.
  { destruct (C3 eq_refl eq_refl eq_refl) as [_ L]. congruence. }
  apply exact_leb_false in E1. apply exact_ltb_false in E2.
  apply Z.leb_gt in E3. change (0 < M) in E1. change (0 <= r) in E2.
  repeat split; try assumption.
  destruct (rate_zero_or_positive r E2) as [Z0|Pos].
  - rewrite (loan_zero_rate M r t E1 Z0 E3) in H. injection H as <-.
    apply Qmult_lt_0_compat; [exact E1|]. unfold Qlt. cbn. lia.
  - rewrite (loan_positive_rate M r t E1 Pos E3) in H. injection H as <-.
    apply Qmult_lt_0_compat; [exact E1|]. apply Qlt_shift_div_l.
    + apply growth_rate_product_pos; assumption.
    + rewrite Qmult_0_l. apply growth_denominator_pos; assumption.
Qed.
End DepositDivisionExact.

(** C9, as the code has it.  On any arithmetic the action divides by
    [principal + deposit] only after [calculate_loan_amount] returned a
    number, which needs the check [monthly_payment <= 0] to fail, and it
    then ends in the error handler exactly when that division raises.  On
    binary64 the division raises exactly when [principal + deposit] is
    zero, and the handler then shows [ZeroDivisionError].  In exact
    arithmetic a loan amount that is a number is positive and comes from a
    positive payment, so a non-negative deposit makes the divisor positive
    and only the negative deposit [- principal] makes it zero. *)
Theorem deposit_division_after_success :
  (forall (T : Type) (num : PyNum T) (M : T) (deposit : option T)
          (rate_percent : T) (t : Z) (annual_rate : T),
     let d := match deposit with Some d => d | None => lit 0 end in
     let printed_lines := affordable_price_action M deposit rate_percent t in
     let loan := calculate_loan_amount M annual_rate t in
     num_div rate_percent (lit 100) = Value annual_rate ->
     (forall s, loan = Value (ErrorText s) -> printed_lines = [ Failed s ])
     /\ (forall e, loan = Raise e -> printed_lines = [ Unexpected e ])
     /\ (forall p, loan = Value (Amount p) ->
           num_leb M (lit 0) = false
           /\ (forall e, num_div d (num_add p d) = Raise e ->
                 printed_lines = [ Unexpected e ])
           /\ (forall q, num_div d (num_add p d) = Value q ->
                 forall e, printed_lines <> [ Unexpected e ])))
  /\ (forall (M : PrimFloat.float) (deposit : option PrimFloat.float)
             (rate_percent : PrimFloat.float) (t : Z) (p : PrimFloat.float),
        let d := match deposit with Some d => d | None => lit 0 end in
        let printed_lines :=
          affordable_price_action M deposit rate_percent t in
        calculate_loan_amount M (PrimFloat.div rate_percent (lit 100)) t
        = Value (Amount p) ->
        (printed_lines = [ Unexpected ZeroDivisionError ]
         <-> PrimFloat.eqb (PrimFloat.add p d) PrimFloat.zero = true)
        /\ (forall e, printed_lines = [ Unexpected e ] ->
              e = ZeroDivisionError))
  /\ (forall (M r : Q) (t : Z) (p : Q),
        calculate_loan_amount M r t = Value (Amount p) ->
        (0 < M)%Q /\ (0 < p)%Q
        /\ (forall d, (0 <= d)%Q -> (0 < p + d)%Q)
        /\ (forall d, (p + d == 0)%Q -> (d == - p)%Q /\ (d < 0)%Q)).
Proof.
  split; [|split].
  - intros T num M deposit rate_percent t annual_rate d printed_lines loan
      Hr.
    destruct (action_without_number M deposit rate_percent t annual_rate Hr)
      as [F U].
    split; [exact F|]. split; [exact U|]. intros p Hp. split.
    + exact (number_passed_payment_check M annual_rate t p Hp).
    + exact (action_with_number M deposit rate_percent t annual_rate p
               Hr Hp).
  - intros M deposit rate_percent t p d printed_lines Hp.
    assert (Hr : num_div rate_percent (lit 100)
                 = Value (PrimFloat.div rate_percent (lit 100)))
      by reflexivity.
    destruct (action_with_number M deposit rate_percent t _ p Hr Hp)
      as [R V].
    fold d in R, V. fold printed_lines in R, V.
    change (num_div d (num_add p d))
      with (Binary64.float_div d (PrimFloat.add p d)) in R, V.
    unfold Binary64.float_div, PrimFloat.zero in *.
    match type of R with
    | context [PrimFloat.eqb ?a ?z] => destruct (PrimFloat.eqb a z)
    end.
    + pose proof (R _ eq_refl) as E. split.
      * split; [reflexivity | intros _; exact E].
      * intros e H. rewrite E in H. injection H as <-. reflexivity.
    + split.
      * split; [intro H; exfalso; exact (V _ eq_refl _ H) | discriminate].
      * intros e H. exfalso. exact (V _ eq_refl _ H).
  - intros M r t p H.
    destruct (loan_amount_number M r t p H) as (HM & _ & _ & Hp).
    repeat split; try assumption; try lra.
    intros d Hd. lra.
Qed.

(** * The menu loop *)

Section MenuFacts.
Variables UP DOWN ENTER ESC CTRL_C : string.
Local Open Scope string_scope.

Local Abbreviation on_key' := (on_key UP DOWN ENTER ESC CTRL_C).
Local Abbreviation menu_loop' := (menu_loop UP DOWN ENTER ESC CTRL_C).
Local Abbreviation distinct := (keys_distinct UP DOWN ENTER ESC CTRL_C = true).

Ltac split_tests H :=
  unfold keys_distinct, other_key in H;
  repeat (apply andb_prop in H; destruct H as [H ?]);
  repeat match goal with
         | E : negb _ = true |- _ => apply negb_true_iff in E
         end.

Lemma on_key_up (n s : Z) :
  (0 < n)%Z -> on_key' n s UP = Showing ((s - 1) mod n)%Z.
Proof.
  intro Hn. unfold on_key, int_mod. rewrite String.eqb_refl.
  destruct (Z.eqb_spec n 0); [lia|reflexivity].
Qed.

Lemma on_key_down (n s : Z) :
  distinct -> (0 < n)%Z -> on_key' n s DOWN = Showing ((s + 1) mod n)%Z.
Proof.
  intros D Hn. split_tests D. unfold on_key, int_mod.
  rewrite String.eqb_sym. rewrite D. rewrite String.eqb_refl.
  destruct (Z.eqb_spec n 0); [lia|reflexivity].
Qed.

Lemma on_key_confirm (n s : Z) :
  distinct ->
  on_key' n s ENTER = Returned s /\ on_key' n s " " = Returned s.
Proof.
  intro D. split_tests D. unfold on_key. split.
  - repeat match goal with E : (ENTER =? _) = false |- _ => rewrite E end.
    rewrite String.eqb_refl. reflexivity.
  - repeat match goal with E : (" " =? _) = false |- _ => rewrite E end.
    rewrite String.eqb_refl, orb_true_r. reflexivity.
Qed.

Lemma on_key_cancel (n s : Z) :
  distinct ->
  on_key' n s ESC = Returned (-1) /\ on_key' n s CTRL_C = Returned (-1).
Proof.
  intro D. split_tests D. unfold on_key. split.
  - repeat match goal with E : (ESC =? _) = false |- _ => rewrite E end.
    rewrite String.eqb_refl. reflexivity.
  - repeat match goal with E : (CTRL_C =? _) = false |- _ => rewrite E end.
    rewrite String.eqb_refl, orb_true_r. reflexivity.
Qed.

Lemma on_key_other (n s : Z) (key : string) :
  other_key UP DOWN ENTER ESC CTRL_C key = true ->
  on_key' n s key = Showing s.
Proof.
  intro O. split_tests O. unfold on_key.
  repeat match goal with E : (key =? _) = false |- _ => rewrite E end.
  reflexivity.
Qed.

(** One more key after the keys pressed so far. *)
Lemma menu_loop_snoc (n s : Z) (keys : list string) (key : string) :
  menu_loop' n s (keys ++ [key])
  = match menu_loop' n s keys with
    | Showing i => on_key' n i key
    | stopped => stopped
    end.
Proof.
  revert s. induction keys as [|k keys IH]; intro s; cbn [app menu_loop].
  - destruct (on_key' n s key); reflexivity.
  - destruct (on_key' n s k); [apply IH | reflexivity | reflexivity].
Qed.

(** A key moves the highlight inside the option list or leaves it. *)
Lemma on_key_in_range (n s : Z) (key : string) (i : Z) :
  (0 < n)%Z -> (0 <= s < n)%Z -> on_key' n s key = Showing i ->
  (0 <= i < n)%Z.
Proof.
  intros Hn Hs. unfold on_key, int_mod.
  destruct (Z.eqb_spec n 0); [lia|].
  repeat match goal with
         | |- context [if ?b then _ else _] => destruct b
         end; intro E; inversion E; subst;
    try apply Z.mod_pos_bound; assumption.
Qed.

Lemma on_key_never_crashes (n s : Z) (key : string) (e : exn) :
  (0 < n)%Z -> on_key' n s key <> Crashed e.
Proof.
  intro Hn. unfold on_key, int_mod.
  destruct (Z.eqb_spec n 0); [lia|].
  repeat match goal with
         | |- context [if ?b then _ else _] => destruct b
         end; discriminate.
Qed.

Lemma menu_loop_in_range (n s : Z) (keys : list string) :
  (0 < n)%Z -> (0 <= s < n)%Z ->
  match menu_loop' n s keys with
  | Showing i => (0 <= i < n)%Z
  | Returned v => (v = -1 \/ 0 <= v < n)%Z
  | Crashed _ => False
  end.
Proof.
  intros Hn. revert s. induction keys as [|k keys IH]; intros s Hs.
  - exact Hs.
  - cbn [menu_loop]. destruct (on_key' n s k) as [i|v|e] eqn:E.
    + apply IH. exact (on_key_in_range n s k i Hn Hs E).
    + revert E. unfold on_key, int_mod.
      destruct (Z.eqb_spec n 0); [lia|].
      repeat match goal with
             | |- context [if ?b then _ else _] => destruct b
             end; intro E; inversion E; subst; lia.
    + exact (on_key_never_crashes n s k e Hn E).
Qed.
End MenuFacts.

(** C6.  Over a non-empty option list of length [n], after any keys that
    leave the menu showing with the highlight on [s]: down-arrow on the
    last option moves the highlight to the first, up-arrow on the first
    moves it to the last, Escape and Ctrl-C return -1 whatever [s] is, and
    Enter and Space return [s]. *)
Theorem menu_navigation
    (UP DOWN ENTER ESC CTRL_C : string)
    (options keys : list string) (s : Z) :
  let n := Z.of_nat (List.length options) in
  let menu := display_menu_and_get_selection UP DOWN ENTER ESC CTRL_C in
  keys_distinct UP DOWN ENTER ESC CTRL_C = true ->
  options <> [] ->
  menu options keys = Showing s ->
  (s = n - 1 -> menu options (keys ++ [DOWN]) = Showing 0)%Z
  /\ (s = 0 -> menu options (keys ++ [UP]) = Showing (n - 1))%Z
  /\ menu options (keys ++ [ESC]) = Returned (-1)
  /\ menu options (keys ++ [CTRL_C]) = Returned (-1)
  /\ menu options (keys ++ [ENTER]) = Returned s
  /\ menu options (keys ++ [" "%string]) = Returned s.
Proof.
  intros n menu D Hne Hs. subst menu.
  unfold display_menu_and_get_selection in *. fold n in Hs |- *.
  assert (Hn : (0 < n)%Z).
  { subst n. destruct options; [contradiction|]. cbn [List.length]. lia. }
  rewrite !menu_loop_snoc, Hs.
  destruct (on_key_confirm UP DOWN ENTER ESC CTRL_C n s D) as [E1 E2].
  destruct (on_key_cancel UP DOWN ENTER ESC CTRL_C n s D) as [X1 X2].
  repeat split; try assumption.
  - intros ->. rewrite (on_key_down _ _ _ _ _ _ _ D Hn).
    replace (n - 1 + 1)%Z with n by lia. rewrite Z.mod_same by lia.
    reflexivity.
  - intros ->. rewrite (on_key_up _ _ _ _ _ _ _ Hn). f_equal.
    change (0 - 1)%Z with (-1)%Z.
    rewrite <- (Z.mod_unique (-1) n (-1) (n - 1)); [reflexivity| |]; lia.
Qed.

Lemma menu_navigation_witness :
  let menu :=
    display_menu_and_get_selection PosixKeys.UP PosixKeys.DOWN
      PosixKeys.ENTER PosixKeys.ESC PosixKeys.CTRL_C in
  let keys := [ PosixKeys.DOWN; PosixKeys.DOWN ] in
  (2 = 3 - 1 -> menu menu_options (keys ++ [PosixKeys.DOWN]) = Showing 0)%Z
  /\ (2 = 0 -> menu menu_options (keys ++ [PosixKeys.UP]) = Showing (3 - 1))%Z
  /\ menu menu_options (keys ++ [PosixKeys.ESC]) = Returned (-1)
  /\ menu menu_options (keys ++ [PosixKeys.CTRL_C]) = Returned (-1)
  /\ menu menu_options (keys ++ [PosixKeys.ENTER]) = Returned 2
  /\ menu menu_options (keys ++ [" "%string]) = Returned 2.
Proof.
  intros menu keys.
  apply (menu_navigation PosixKeys.UP PosixKeys.DOWN PosixKeys.ENTER
           PosixKeys.ESC PosixKeys.CTRL_C menu_options keys 2).
  - reflexivity.
  - discriminate.
  - reflexivity.
Defined.

(** C10.  Over a non-empty option list of length [n], after any keys the
    menu is either still showing with the highlight in [0 <= s < n], or
    has returned -1 or an index in that range; it never raises.  A key
    other than up, down, Enter, Space, Escape and Ctrl-C leaves the menu
    showing with the same highlight. *)
Theorem menu_highlight_in_range
    (UP DOWN ENTER ESC CTRL_C : string)
    (options keys : list string) :
  let n := Z.of_nat (List.length options) in
  let menu := display_menu_and_get_selection UP DOWN ENTER ESC CTRL_C in
  options <> [] ->
  match menu options keys with
  | Showing s => (0 <= s < n)%Z
  | Returned v => (v = -1 \/ 0 <= v < n)%Z
  | Crashed _ => False
  end
  /\ (forall (s : Z) (key : string),
        other_key UP DOWN ENTER ESC CTRL_C key = true ->
        menu options keys = Showing s ->
        menu options (keys ++ [key]) = Showing s).
Proof.
  intros n menu Hne. subst menu.
  unfold display_menu_and_get_selection. fold n.
  assert (Hn : (0 < n)%Z).
  { subst n. destruct options; [contradiction|]. cbn [List.length]. lia. }
  split.
  - apply menu_loop_in_range; lia.
  - intros s key O Hs. rewrite menu_loop_snoc, Hs.
    apply on_key_other. exact O.
Qed.

Lemma menu_highlight_in_range_witness :
  let menu :=
    display_menu_and_get_selection PosixKeys.UP PosixKeys.DOWN
      PosixKeys.ENTER PosixKeys.ESC PosixKeys.CTRL_C in
  let keys := [ PosixKeys.UP; "x"%string; PosixKeys.DOWN; PosixKeys.DOWN ] in
  match menu menu_options keys with
  | Showing s => (0 <= s < 3)%Z
  | Returned v => (v = -1 \/ 0 <= v < 3)%Z
  | Crashed _ => False
  end
  /\ (forall (s : Z) (key : string),
        other_key PosixKeys.UP PosixKeys.DOWN PosixKeys.ENTER PosixKeys.ESC
          PosixKeys.CTRL_C key = true ->
        menu menu_options keys = Showing s ->
        menu menu_options (keys ++ [key]) = Showing s).
Proof.
  intros menu keys.
  apply (menu_highlight_in_range PosixKeys.UP PosixKeys.DOWN PosixKeys.ENTER
           PosixKeys.ESC PosixKeys.CTRL_C menu_options keys).
  discriminate.
Defined.

(** * The annuity factor and the payment *)

Section AnnuityFactor.
Local Open Scope Q_scope.

Lemma mult_le_left (x y z : Q) : x <= y -> 0 <= z -> z * x <= z * y.
Proof.
  intros Hxy Hz. rewrite (Qmult_comm z x), (Qmult_comm z y).
  apply Qmult_le_compat_r; assumption.
Qed.

Lemma annuity_factor_nonneg (x : Q) (n : nat) :
  0 <= x -> 0 <= annuity_factor x n.
Proof.
  intro Hx. induction n as [|n IH]; cbn [annuity_factor].
  - apply Qle_refl.
  - apply Qmult_le_0_compat; [exact Hx|lra].
Qed.

Lemma annuity_factor_pos (x : Q) (n : nat) :
  0 < x -> 0 < annuity_factor x (S n).
Proof.
  intro Hx. cbn [annuity_factor].
  pose proof (annuity_factor_nonneg x n (Qlt_le_weak _ _ Hx)).
  apply Qmult_lt_0_compat; lra.
Qed.

Lemma annuity_factor_le (x y : Q) (n : nat) :
  0 <= x -> x <= y -> annuity_factor x n <= annuity_factor y n.
Proof.
  intros Hx Hxy. induction n as [|n IH]; cbn [annuity_factor].
  - apply Qle_refl.
  - pose proof (annuity_factor_nonneg x n Hx).
    apply Qle_trans with (y * (1 + annuity_factor x n)).
    + apply Qmult_le_compat_r; [exact Hxy|lra].
    + apply mult_le_left; lra.
Qed.

Lemma annuity_factor_lt (x y : Q) (n : nat) :
  0 <= x -> x < y -> annuity_factor x (S n) < annuity_factor y (S n).
Proof.
  intros Hx Hxy. cbn [annuity_factor].
  pose proof (annuity_factor_nonneg x n Hx).
  pose proof (annuity_factor_le x y n Hx (Qlt_le_weak _ _ Hxy)).
  apply Qlt_le_trans with (y * (1 + annuity_factor x n)).
  - apply Qmult_lt_compat_r; [lra|exact Hxy].
  - apply mult_le_left; lra.
Qed.

Lemma annuity_factor_grows (x : Q) (n : nat) :
  0 < x -> annuity_factor x n < annuity_factor x (S n).
Proof.
  intro Hx. induction n as [|n IH].
  - cbn [annuity_factor]. lra.
  - change (annuity_factor x (S (S n)))
      with (x * (1 + annuity_factor x (S n))).
    change (annuity_factor x (S n))
      with (x * (1 + annuity_factor x n)) at 1.
    apply Qmult_lt_l; lra.
Qed.

Lemma annuity_factor_longer (x : Q) (n m : nat) :
  0 < x -> (n < m)%nat -> annuity_factor x n < annuity_factor x m.
Proof.
  intros Hx Hnm. induction Hnm as [|m _ IH].
  - apply annuity_factor_grows, Hx.
  - apply Qlt_trans with (annuity_factor x m);
      [exact IH | apply annuity_factor_grows, Hx].
Qed.

Lemma annuity_factor_at_one (x : Q) (n : nat) :
  x == 1 -> annuity_factor x n == inject_Z (Z.of_nat n).
Proof.
  intro Hx. induction n as [|n IH]; cbn [annuity_factor].
  - reflexivity.
  - rewrite IH, Hx, Nat2Z.inj_succ. unfold Z.succ. rewrite inject_Z_plus.
    ring.
Qed.

Lemma power_succ (q : Q) (n : nat) :
  q ^ Z.of_nat (S n) == q * q ^ Z.of_nat n.
Proof.
  rewrite Nat2Z.inj_succ. unfold Z.succ.
  rewrite Qpower_plus' by lia. rewrite Qpower_1_r. ring.
Qed.

(** The closed form of the sum at [x = 1 / (1 + i)]. *)
Lemma annuity_factor_closed (i : Q) (n : nat) :
  0 < i ->
  annuity_factor (/ (1 + i)) n * (i * (1 + i) ^ Z.of_nat n)
  == (1 + i) ^ Z.of_nat n - 1.
Proof.
  intro Hi. induction n as [|n IH].
  - cbn. ring.
  - cbn [annuity_factor]. rewrite power_succ.
    set (g := (1 + i) ^ Z.of_nat n) in *.
    set (a := annuity_factor (/ (1 + i)) n) in *.
    setoid_replace (/ (1 + i) * (1 + a) * (i * ((1 + i) * g)))
      with (i * g + a * (i * g)) by (field; lra).
    rewrite IH. ring.
Qed.
End AnnuityFactor.

Section PaymentByFactor.
Local Open Scope Q_scope.

Lemma discount_bounds (r : Q) : 0 <= r -> 0 < discount r <= 1.
Proof.
  intro Hr. unfold discount.
  assert (H : 0 < 1 + r / 12).
  { assert (0 <= r / 12) by (apply Qle_shift_div_l; lra). lra. }
  split.
  - apply Qinv_lt_0_compat, H.
  - apply Qle_shift_inv_r; [exact H|].
    assert (0 <= r / 12) by (apply Qle_shift_div_l; lra). lra.
Qed.

Lemma discount_falls (r1 r2 : Q) :
  0 <= r1 -> r1 < r2 -> discount r2 < discount r1.
Proof.
  intros H1 H12. unfold discount.
  assert (A : 0 < 1 + r1 / 12).
  { assert (0 <= r1 / 12) by (apply Qle_shift_div_l; lra). lra. }
  assert (B : 1 + r1 / 12 < 1 + r2 / 12).
  { assert (r1 / 12 < r2 / 12); [|lra].
    apply Qlt_shift_div_l; [reflexivity|].
    setoid_replace (r1 / 12 * 12) with r1 by field. exact H12. }
  assert (A2 : 0 < 1 + r2 / 12) by lra.
  exact (proj1 (Qinv_lt_contravar _ _ A A2) B).
Qed.

Lemma payments_positive (t : Z) : (0 < t)%Z -> exists k, payments t = S k.
Proof.
  intro Ht. unfold payments. destruct (Z.to_nat (t * 12)) eqn:E; [lia|eauto].
Qed.

Lemma payments_count (t : Z) :
  (0 < t)%Z -> Z.of_nat (payments t) = (t * 12)%Z.
Proof. intro Ht. unfold payments. lia. Qed.

Lemma factor_closed (r : Q) (t : Z) :
  0 < r -> (0 < t)%Z ->
  annuity_factor (discount r) (payments t) * (monthly_rate r * growth r t)
  == growth r t - 1.
Proof.
  intros Hr Ht. unfold discount, growth.
  rewrite <- (payments_count t Ht).
  apply annuity_factor_closed. apply monthly_rate_pos, Hr.
Qed.

Lemma factor_zero_rate (r : Q) (t : Z) :
  r == 0 -> (0 < t)%Z ->
  annuity_factor (discount r) (payments t) == inject_Z (t * 12).
Proof.
  intros Hr Ht. rewrite <- (payments_count t Ht).
  apply annuity_factor_at_one. unfold discount. rewrite Hr. reflexivity.
Qed.

(** The payment is the principal divided by the annuity factor, at a zero
    rate as well as at a positive one. *)
Lemma payment_by_factor (P r : Q) (t : Z) :
  0 < P -> 0 <= r -> (0 < t)%Z ->
  exists m,
    calculate_mortgage_payment P r t = Value (Amount m)
    /\ 0 < m
    /\ m * annuity_factor (discount r) (payments t) == P.
Proof.
  intros HP Hr Ht. destruct (rate_zero_or_positive r Hr) as [Z0|Pos].
  - eexists. split; [apply payment_zero_rate; assumption|].
    split; [apply straight_line_positive; assumption|].
    rewrite (factor_zero_rate r t Z0 Ht). field.
    intro H. unfold Qeq in H. cbn in H. lia.
  - eexists. split; [apply payment_positive_rate; assumption|].
    split; [apply payment_value_positive; assumption|].
    pose proof (factor_closed r t Pos Ht) as C.
    pose proof (growth_denominator_pos r t Pos Ht) as D.
    set (a := annuity_factor (discount r) (payments t)) in *.
    set (g := growth r t) in *. set (i := monthly_rate r) in *.
    setoid_replace (P * (i * g / (g - 1)) * a)
      with (P * (a * (i * g)) / (g - 1)) by (field; lra).
    rewrite C. field. lra.
Qed.

(** The loan amount is the payment times the annuity factor. *)
Lemma loan_by_factor (M r : Q) (t : Z) :
  0 < M -> 0 <= r -> (0 < t)%Z ->
  exists p,
    calculate_loan_amount M r t = Value (Amount p)
    /\ p == M * annuity_factor (discount r) (payments t).
Proof.
  intros HM Hr Ht. destruct (rate_zero_or_positive r Hr) as [Z0|Pos].
  - eexists. split; [apply loan_zero_rate; assumption|].
    rewrite (factor_zero_rate r t Z0 Ht). reflexivity.
  - eexists. split; [apply loan_positive_rate; assumption|].
    pose proof (factor_closed r t Pos Ht) as C.
    pose proof (monthly_rate_pos r Pos) as I.
    pose proof (growth_above_one r t Pos Ht) as G.
    set (a := annuity_factor (discount r) (payments t)) in *.
    set (g := growth r t) in *. set (i := monthly_rate r) in *.
    rewrite <- C. field. split; lra.
Qed.

Lemma factor_falls_with_rate (r1 r2 : Q) (t : Z) :
  0 <= r1 -> r1 < r2 -> (0 < t)%Z ->
  0 < annuity_factor (discount r2) (payments t)
    < annuity_factor (discount r1) (payments t).
Proof.
  intros H1 H12 Ht. destruct (payments_positive t Ht) as [k ->].
  assert (H2 : 0 <= r2) by lra.
  destruct (discount_bounds r2 H2) as [D2 _].
  split.
  - apply annuity_factor_pos, D2.
  - apply annuity_factor_lt; [lra|apply discount_falls; assumption].
Qed.

Lemma factor_grows_with_term (r : Q) (t1 t2 : Z) :
  0 <= r -> (0 < t1)%Z -> (t1 < t2)%Z ->
  0 < annuity_factor (discount r) (payments t1)
    < annuity_factor (discount r) (payments t2).
Proof.
  intros Hr H1 H12. destruct (discount_bounds r Hr) as [D _]. split.
  - destruct (payments_positive t1 H1) as [k ->].
    apply annuity_factor_pos, D.
  - apply annuity_factor_longer; [exact D|]. unfold payments. lia.
Qed.

Lemma factor_below_count (r : Q) (t : Z) :
  0 < r -> (0 < t)%Z ->
  annuity_factor (discount r) (payments t) < inject_Z (t * 12).
Proof.
  intros Hr Ht.
  rewrite <- (factor_zero_rate 0 t (Qeq_refl 0) Ht).
  apply (factor_falls_with_rate 0 r t); [apply Qle_refl|exact Hr|exact Ht].
Qed.

Lemma factor_below_perpetuity (r : Q) (t : Z) :
  0 < r -> (0 < t)%Z ->
  annuity_factor (discount r) (payments t) * monthly_rate r < 1.
Proof.
  intros Hr Ht. pose proof (factor_closed r t Hr Ht) as C.
  pose proof (growth_above_one r t Hr Ht) as G.
  set (a := annuity_factor (discount r) (payments t)) in *.
  set (g := growth r t) in *. set (i := monthly_rate r) in *.
  apply Qmult_lt_r with g; [lra|].
  setoid_replace (a * i * g) with (a * (i * g)) by ring. rewrite C. lra.
Qed.

(** Dividing a fixed positive amount by a larger factor gives less. *)
Lemma quotient_order (P m1 m2 a1 a2 : Q) :
  0 < P -> 0 < m2 -> 0 < a1 < a2 -> m1 * a1 == P -> m2 * a2 == P ->
  m2 < m1.
Proof.
  intros HP Hm2 [Ha1 Ha12] E1 E2.
  apply Qmult_lt_r with a1; [exact Ha1|]. rewrite E1, <- E2.
  apply Qmult_lt_l; assumption.
Qed.
End PaymentByFactor.

(** * How the payment and the loan amount move with their inputs *)

(** X1.  In exact arithmetic, a higher annual rate means a strictly higher
    monthly payment for the same principal and term, from a zero rate on. *)
Theorem payment_rises_with_rate (P r1 r2 : Q) (t : Z) :
  (0 < P)%Q -> (0 <= r1)%Q -> (r1 < r2)%Q -> (0 < t)%Z ->
  exists m1 m2 : Q,
    calculate_mortgage_payment P r1 t = Value (Amount m1)
    /\ calculate_mortgage_payment P r2 t = Value (Amount m2)
    /\ (m1 < m2)%Q.
Proof.
  intros HP H1 H12 Ht.
  assert (H2 : (0 <= r2)%Q) by lra.
  destruct (payment_by_factor P r1 t HP H1 Ht) as (m1 & E1 & M1 & F1).
  destruct (payment_by_factor P r2 t HP H2 Ht) as (m2 & E2 & M2 & F2).
  exists m1, m2. repeat split; try assumption.
  exact (quotient_order P m2 m1 _ _ HP M1
           (factor_falls_with_rate r1 r2 t H1 H12 Ht) F2 F1).
Qed.

Lemma payment_rises_with_rate_witness :
  exists m1 m2 : Q,
    calculate_mortgage_payment (200000 # 1) 0 25 = Value (Amount m1)
    /\ calculate_mortgage_payment (200000 # 1) (45 # 1000) 25
       = Value (Amount m2)
    /\ (m1 < m2)%Q.
Proof.
  apply (payment_rises_with_rate (200000 # 1) 0 (45 # 1000) 25).
  - reflexivity.
  - apply Qle_bool_imp_le. reflexivity.
  - reflexivity.
  - reflexivity.
Defined.

(** X2.  In exact arithmetic, a longer term means a strictly lower monthly
    payment for the same principal and rate. *)
Theorem payment_falls_with_term (P r : Q) (t1 t2 : Z) :
  (0 < P)%Q -> (0 <= r)%Q -> (0 < t1)%Z -> (t1 < t2)%Z ->
  exists m1 m2 : Q,
    calculate_mortgage_payment P r t1 = Value (Amount m1)
    /\ calculate_mortgage_payment P r t2 = Value (Amount m2)
    /\ (m2 < m1)%Q.
Proof.
  intros HP Hr H1 H12.
  assert (H2 : (0 < t2)%Z) by lia.
  destruct (payment_by_factor P r t1 HP Hr H1) as (m1 & E1 & M1 & F1).
  destruct (payment_by_factor P r t2 HP Hr H2) as (m2 & E2 & M2 & F2).
  exists m1, m2. repeat split; try assumption.
  exact (quotient_order P m1 m2 _ _ HP M2
           (factor_grows_with_term r t1 t2 Hr H1 H12) F1 F2).
Qed.

Lemma payment_falls_with_term_witness :
  exists m1 m2 : Q,
    calculate_mortgage_payment (200000 # 1) (45 # 1000) 20
    = Value (Amount m1)
    /\ calculate_mortgage_payment (200000 # 1) (45 # 1000) 25
       = Value (Amount m2)
    /\ (m2 < m1)%Q.
Proof.
  apply (payment_falls_with_term (200000 # 1) (45 # 1000) 20 25).
  - reflexivity.
  - apply Qle_bool_imp_le. reflexivity.
  - reflexivity.
  - reflexivity.
Defined.

(** X3.  In exact arithmetic, at a positive rate the payments add up to
    more than the principal, and each payment is more than one month's
    interest on the principal; at a zero rate they add up to exactly the
    principal. *)
Theorem repayment_covers_interest (P r : Q) (t : Z) :
  (0 < P)%Q -> (0 <= r)%Q -> (0 < t)%Z ->
  exists m : Q,
    calculate_mortgage_payment P r t = Value (Amount m)
    /\ ((r == 0)%Q -> (m * inject_Z (t * 12) == P)%Q)
    /\ ((0 < r)%Q ->
        (P < m * inject_Z (t * 12))%Q /\ (P * (r / 12) < m)%Q).
Proof.
  intros HP Hr Ht.
  destruct (payment_by_factor P r t HP Hr Ht) as (m & E & M & F).
  exists m. split; [exact E|]. split.
  - intro Z0. rewrite <- (factor_zero_rate r t Z0 Ht). exact F.
  - intro Pos. split.
    + rewrite <- F. apply Qmult_lt_l; [exact M|].
      apply factor_below_count; assumption.
    + pose proof (factor_below_perpetuity r t Pos Ht) as B.
      fold (monthly_rate r). rewrite <- F.
      set (a := annuity_factor (discount r) (payments t)) in *.
      set (i := monthly_rate r) in *.
      setoid_replace (m * a * i) with (m * (a * i))%Q by ring.
      setoid_replace m with (m * 1)%Q at 2 by ring.
      apply Qmult_lt_l; assumption.
Qed.

Lemma repayment_covers_interest_witness :
  exists m : Q,
    calculate_mortgage_payment (200000 # 1) (45 # 1000) 25
    = Value (Amount m)
    /\ ((45 # 1000 == 0)%Q -> (m * inject_Z (25 * 12) == 200000 # 1)%Q)
    /\ ((0 < 45 # 1000)%Q ->
        (200000 # 1 < m * inject_Z (25 * 12))%Q
        /\ ((200000 # 1) * ((45 # 1000) / 12) < m)%Q).
Proof.
  apply (repayment_covers_interest (200000 # 1) (45 # 1000) 25).
  - reflexivity.
  - apply Qle_bool_imp_le. reflexivity.
  - reflexivity.
Defined.

(** X4.  In exact arithmetic the payment is proportional to the principal:
    [k] times the principal gives [k] times the payment. *)
Theorem payment_scales_with_principal (P k r : Q) (t : Z) :
  (0 < P)%Q -> (0 < k)%Q -> (0 <= r)%Q -> (0 < t)%Z ->
  exists m mk : Q,
    calculate_mortgage_payment P r t = Value (Amount m)
    /\ calculate_mortgage_payment (k * P) r t = Value (Amount mk)
    /\ (mk == k * m)%Q.
Proof.
  intros HP Hk Hr Ht.
  assert (HkP : (0 < k * P)%Q) by (apply Qmult_lt_0_compat; assumption).
  destruct (payment_by_factor P r t HP Hr Ht) as (m & E & M & F).
  destruct (payment_by_factor (k * P) r t HkP Hr Ht) as (mk & Ek & Mk & Fk).
  exists m, mk. repeat split; try assumption.
  destruct (payments_positive t Ht) as [n Hn].
  destruct (discount_bounds r Hr) as [D _].
  pose proof (annuity_factor_pos (discount r) n D) as A.
  rewrite <- Hn in A.
  set (a := annuity_factor (discount r) (payments t)) in *.
  apply Qmult_inj_r with a; [lra|].
  rewrite Fk, <- F. ring.
Qed.

Lemma payment_scales_with_principal_witness :
  exists m mk : Q,
    calculate_mortgage_payment (100000 # 1) (45 # 1000) 25
    = Value (Amount m)
    /\ calculate_mortgage_payment ((2 # 1) * (100000 # 1)) (45 # 1000) 25
       = Value (Amount mk)
    /\ (mk == (2 # 1) * m)%Q.
Proof.
  apply (payment_scales_with_principal (100000 # 1) (2 # 1) (45 # 1000) 25).
  - reflexivity.
  - reflexivity.
  - apply Qle_bool_imp_le. reflexivity.
  - reflexivity.
Defined.

(** X5.  In exact arithmetic the two functions are inverse in the other
    direction too: the payment computed for the loan amount that a payment
    [M] affords is [M] again. *)
Theorem payment_inverts_loan_amount (M r : Q) (t : Z) :
  (0 < M)%Q -> (0 <= r)%Q -> (0 < t)%Z ->
  exists p M' : Q,
    calculate_loan_amount M r t = Value (Amount p)
    /\ calculate_mortgage_payment p r t = Value (Amount M')
    /\ (M' == M)%Q.
Proof.
  intros HM Hr Ht.
  destruct (loan_by_factor M r t HM Hr Ht) as (p & E & F).
  destruct (payments_positive t Ht) as [n Hn].
  destruct (discount_bounds r Hr) as [D _].
  pose proof (annuity_factor_pos (discount r) n D) as A.
  rewrite <- Hn in A.
  assert (Hp : (0 < p)%Q).
  { rewrite F. apply Qmult_lt_0_compat; assumption. }
  destruct (payment_by_factor p r t Hp Hr Ht) as (M' & E' & _ & F').
  exists p, M'. repeat split; try assumption.
  set (a := annuity_factor (discount r) (payments t)) in *.
  apply Qmult_inj_r with a; [lra|]. rewrite F', F. reflexivity.
Qed.

Lemma payment_inverts_loan_amount_witness :
  exists p M' : Q,
    calculate_loan_amount (1110 # 1) (45 # 1000) 25 = Value (Amount p)
    /\ calculate_mortgage_payment p (45 # 1000) 25 = Value (Amount M')
    /\ (M' == 1110 # 1)%Q.
Proof.
  apply (payment_inverts_loan_amount (1110 # 1) (45 # 1000) 25).
  - reflexivity.
  - apply Qle_bool_imp_le. reflexivity.
  - reflexivity.
Defined.

(** X6.  In exact arithmetic the loan a payment affords never exceeds the
    sum of the payments, and a higher rate strictly lowers it. *)
Theorem loan_amount_falls_with_rate (M r1 r2 : Q) (t : Z) :
  (0 < M)%Q -> (0 <= r1)%Q -> (r1 < r2)%Q -> (0 < t)%Z ->
  exists p1 p2 : Q,
    calculate_loan_amount M r1 t = Value (Amount p1)
    /\ calculate_loan_amount M r2 t = Value (Amount p2)
    /\ (p2 < p1)%Q /\ (p1 <= M * inject_Z (t * 12))%Q.
Proof.
  intros HM H1 H12 Ht.
  assert (H2 : (0 <= r2)%Q) by lra.
  destruct (loan_by_factor M r1 t HM H1 Ht) as (p1 & E1 & F1).
  destruct (loan_by_factor M r2 t HM H2 Ht) as (p2 & E2 & F2).
  exists p1, p2. repeat split; try assumption.
  - rewrite F1, F2. apply Qmult_lt_l; [exact HM|].
    apply (factor_falls_with_rate r1 r2 t H1 H12 Ht).
  - rewrite F1. apply mult_le_left; [|lra].
    destruct (rate_zero_or_positive r1 H1) as [Z0|Pos].
    + rewrite (factor_zero_rate r1 t Z0 Ht). apply Qle_refl.
    + apply Qlt_le_weak, factor_below_count; assumption.
Qed.

Lemma loan_amount_falls_with_rate_witness :
  exists p1 p2 : Q,
    calculate_loan_amount (1110 # 1) (3 # 100) 25 = Value (Amount p1)
    /\ calculate_loan_amount (1110 # 1) (45 # 1000) 25 = Value (Amount p2)
    /\ (p2 < p1)%Q /\ (p1 <= (1110 # 1) * inject_Z (25 * 12))%Q.
Proof.
  apply (loan_amount_falls_with_rate (1110 # 1) (3 # 100) (45 # 1000) 25).
  - reflexivity.
  - apply Qle_bool_imp_le. reflexivity.
  - reflexivity.
  - reflexivity.
Defined.

(** * What the menu draws *)

Section OptionLines.
Local Open Scope string_scope.

Lemma option_line_highlighted (s : Z) (i : nat) (o : string) :
  highlighted (option_line s i o) = (Z.of_nat i =? s)%Z.
Proof.
  unfold option_line, highlighted.
  destruct (Z.of_nat i =? s)%Z; cbn; [|reflexivity].
  match goal with |- prefix "" ?x = true => destruct x; reflexivity end.
Qed.

Lemma option_lines_from_length (s : Z) (i : nat) (options : list string) :
  List.length (option_lines_from s i options) = List.length options.
Proof.
  revert i. induction options as [|o rest IH]; intro i; cbn.
  - reflexivity.
  - rewrite IH. reflexivity.
Qed.

(** Lines drawn from index [i] on: one highlight when the selected index
    lies among them, none otherwise. *)
Lemma option_lines_from_highlights (s : Z) (i : nat) (options : list string) :
  List.length (filter highlighted (option_lines_from s i options))
  = if ((Z.of_nat i <=? s) && (s <? Z.of_nat (i + List.length options)))%Z
    then 1%nat else 0%nat.
Proof.
  revert i. induction options as [|o rest IH]; intro i.
  - cbn [option_lines_from filter List.length].
    destruct (Z.leb_spec (Z.of_nat i) s), (Z.ltb_spec s (Z.of_nat (i + 0)));
      cbn [andb]; try reflexivity; lia.
  - cbn [option_lines_from filter]. rewrite option_line_highlighted.
    specialize (IH (S i)). cbn [List.length].
    destruct (Z.eqb_spec (Z.of_nat i) s) as [E|N].
    + cbn [List.length]. rewrite IH.
      destruct (Z.leb_spec (Z.of_nat (S i)) s); [lia|]. cbn [andb].
      destruct (Z.leb_spec (Z.of_nat i) s); [|lia].
      destruct (Z.ltb_spec s (Z.of_nat (i + S (List.length rest))));
        [reflexivity|lia].
    + rewrite IH.
      destruct (Z.leb_spec (Z.of_nat (S i)) s),
               (Z.leb_spec (Z.of_nat i) s),
               (Z.ltb_spec s (Z.of_nat (S i + List.length rest))),
               (Z.ltb_spec s (Z.of_nat (i + S (List.length rest))));
        cbn [andb]; try reflexivity; lia.
Qed.

Lemma option_lines_from_nth (s : Z) (i k : nat) (options : list string) :
  nth_error (option_lines_from s i options) k
  = option_map (option_line s (i + k)) (nth_error options k).
Proof.
  revert i k. induction options as [|o rest IH]; intros i k.
  - destruct k; reflexivity.
  - destruct k as [|k]; cbn [option_lines_from nth_error option_map].
    + rewrite Nat.add_0_r. reflexivity.
    + rewrite IH. replace (S i + k)%nat with (i + S k)%nat by lia.
      reflexivity.
Qed.
End OptionLines.

(** X7.  Whenever the menu over a non-empty option list is showing, the
    pass draws one line per option, exactly one of them carries the
    highlight marker, and it is the line of the selected option, numbered
    from 1. *)
Theorem menu_draws_one_highlight
    (UP DOWN ENTER ESC CTRL_C : string)
    (options keys : list string) (s : Z) :
  options <> [] ->
  display_menu_and_get_selection UP DOWN ENTER ESC CTRL_C options keys
  = Showing s ->
  let drawn := option_lines options s in
  List.length drawn = List.length options
  /\ List.length (filter highlighted drawn) = 1%nat
  /\ exists text,
       nth_error options (Z.to_nat s) = Some text
       /\ nth_error drawn (Z.to_nat s)
          = Some ("> [" ++ decimal (Z.to_nat s + 1) ++ "] " ++ text ++ " <")%string.
Proof.
  intros Hne Hs drawn. subst drawn. unfold option_lines.
  unfold display_menu_and_get_selection in Hs.
  assert (Hn : (0 < Z.of_nat (List.length options))%Z).
  { destruct options; [contradiction|]. cbn [List.length]. lia. }
  pose proof (menu_loop_in_range UP DOWN ENTER ESC CTRL_C
                (Z.of_nat (List.length options)) 0 keys Hn
                (conj (Z.le_refl 0) Hn)) as R.
  rewrite Hs in R. split; [apply option_lines_from_length|]. split.
  - rewrite option_lines_from_highlights. cbn [Nat.add Z.of_nat].
    destruct (Z.leb_spec 0 s), (Z.ltb_spec s (Z.of_nat (List.length options)));
      cbn [andb]; try reflexivity; lia.
  - destruct (nth_error options (Z.to_nat s)) as [text|] eqn:E.
    + exists text. split; [reflexivity|].
      rewrite option_lines_from_nth, E. cbn [option_map Nat.add].
      unfold option_line. rewrite Z2Nat.id by lia. rewrite Z.eqb_refl.
      reflexivity.
    + apply nth_error_None in E. lia.
Qed.

Lemma menu_draws_one_highlight_witness :
  let drawn := option_lines menu_options 1 in
  List.length drawn = List.length menu_options
  /\ List.length (filter highlighted drawn) = 1%nat
  /\ exists text,
       nth_error menu_options (Z.to_nat 1) = Some text
       /\ nth_error drawn (Z.to_nat 1)
          = Some ("> [" ++ decimal (Z.to_nat 1 + 1) ++ "] " ++ text ++ " <")%string.
Proof.
  apply (menu_draws_one_highlight PosixKeys.UP PosixKeys.DOWN PosixKeys.ENTER
           PosixKeys.ESC PosixKeys.CTRL_C menu_options
           [ PosixKeys.DOWN ] 1).
  - discriminate.
  - reflexivity.
Defined.

(** * The menu over an empty option list, and the choice of action *)

Section MenuEdges.
Variables UP DOWN ENTER ESC CTRL_C : string.
Local Open Scope string_scope.

(** Keys that match no pattern are skipped. *)
Lemma menu_loop_skips (n s : Z) (ignored keys : list string) :
  forallb (other_key UP DOWN ENTER ESC CTRL_C) ignored = true ->
  menu_loop UP DOWN ENTER ESC CTRL_C n s (ignored ++ keys)
  = menu_loop UP DOWN ENTER ESC CTRL_C n s keys.
Proof.
  induction ignored as [|k ignored IH]; intro H; [reflexivity|].
  cbn [forallb] in H. apply andb_prop in H. destruct H as [Hk H].
  cbn [app menu_loop]. rewrite (on_key_other _ _ _ _ _ n s k Hk).
  apply IH, H.
Qed.
End MenuEdges.

(** X8.  Over an empty option list the first key that matches a pattern
    decides: an arrow key raises [ZeroDivisionError] (the index is taken
    modulo zero), Enter or Space returns index 0 although there is no
    option, and Escape or Ctrl-C returns -1.  Keys matching no pattern
    before it are skipped, and keys after it are not read. *)
Theorem menu_over_no_options
    (UP DOWN ENTER ESC CTRL_C : string) (ignored rest : list string) :
  let menu keys :=
    display_menu_and_get_selection UP DOWN ENTER ESC CTRL_C [] keys in
  keys_distinct UP DOWN ENTER ESC CTRL_C = true ->
  forallb (other_key UP DOWN ENTER ESC CTRL_C) ignored = true ->
  menu (ignored ++ UP :: rest) = Crashed ZeroDivisionError
  /\ menu (ignored ++ DOWN :: rest) = Crashed ZeroDivisionError
  /\ menu (ignored ++ ENTER :: rest) = Returned 0
  /\ menu (ignored ++ " "%string :: rest) = Returned 0
  /\ menu (ignored ++ ESC :: rest) = Returned (-1)
  /\ menu (ignored ++ CTRL_C :: rest) = Returned (-1).
Proof.
  intros menu D I. subst menu. cbv beta.
  unfold display_menu_and_get_selection. cbn [List.length Z.of_nat].
  rewrite !(menu_loop_skips _ _ _ _ _ _ _ _ _ I). cbn [menu_loop].
  destruct (on_key_confirm UP DOWN ENTER ESC CTRL_C 0 0 D) as [E1 E2].
  destruct (on_key_cancel UP DOWN ENTER ESC CTRL_C 0 0 D) as [X1 X2].
  rewrite E1, E2, X1, X2. repeat split.
  - unfold on_key. rewrite String.eqb_refl. reflexivity.
  - unfold on_key. destruct (DOWN =? UP)%string; rewrite ?String.eqb_refl;
      reflexivity.
Qed.

Lemma menu_over_no_options_witness :
  let menu keys :=
    display_menu_and_get_selection PosixKeys.UP PosixKeys.DOWN
      PosixKeys.ENTER PosixKeys.ESC PosixKeys.CTRL_C [] keys in
  let ignored := [ "x"%string ] in
  let rest := [ PosixKeys.ESC ] in
  menu (ignored ++ PosixKeys.UP :: rest) = Crashed ZeroDivisionError
  /\ menu (ignored ++ PosixKeys.DOWN :: rest) = Crashed ZeroDivisionError
  /\ menu (ignored ++ PosixKeys.ENTER :: rest) = Returned 0
  /\ menu (ignored ++ " "%string :: rest) = Returned 0
  /\ menu (ignored ++ PosixKeys.ESC :: rest) = Returned (-1)
  /\ menu (ignored ++ PosixKeys.CTRL_C :: rest) = Returned (-1).
Proof.
  intros menu ignored rest.
  apply (menu_over_no_options PosixKeys.UP PosixKeys.DOWN PosixKeys.ENTER
           PosixKeys.ESC PosixKeys.CTRL_C ignored rest); reflexivity.
Defined.

(** X9.  Whatever the menu over the three options of the application
    returns selects an action: -1 and the index of "Exit" leave the loop,
    index 0 runs the monthly-payment action and index 1 the
    affordable-price action; the "Invalid selection" branch is never
    taken and the option lookup never fails. *)
Theorem menu_choice_selects_action
    (UP DOWN ENTER ESC CTRL_C : string) (keys : list string) (v : Z) :
  display_menu_and_get_selection UP DOWN ENTER ESC CTRL_C menu_options keys
  = Returned v ->
  (choose_branch menu_options v = Some ExitApp <-> (v = -1 \/ v = 2)%Z)
  /\ (choose_branch menu_options v = Some PaymentBranch <-> v = 0%Z)
  /\ (choose_branch menu_options v = Some AffordableBranch <-> v = 1%Z)
  /\ choose_branch menu_options v <> Some InvalidSelection
  /\ choose_branch menu_options v <> None.
Proof.
  intro H. unfold display_menu_and_get_selection in H.
  pose proof (menu_loop_in_range UP DOWN ENTER ESC CTRL_C
                (Z.of_nat (List.length menu_options)) 0 keys) as R.
  rewrite H in R. cbn in R.
  assert (C : (v = -1 \/ v = 0 \/ v = 1 \/ v = 2)%Z) by lia.
  destruct C as [ -> | [ -> | [ -> | -> ] ] ]; vm_compute;
    repeat split; intros; try discriminate; try lia; auto.
Qed.

Lemma menu_choice_selects_action_witness :
  (choose_branch menu_options 2 = Some ExitApp <-> (2 = -1 \/ 2 = 2)%Z)
  /\ (choose_branch menu_options 2 = Some PaymentBranch <-> 2%Z = 0%Z)
  /\ (choose_branch menu_options 2 = Some AffordableBranch <-> 2%Z = 1%Z)
  /\ choose_branch menu_options 2 <> Some InvalidSelection
  /\ choose_branch menu_options 2 <> None.
Proof.
  apply (menu_choice_selects_action PosixKeys.UP PosixKeys.DOWN
           PosixKeys.ENTER PosixKeys.ESC PosixKeys.CTRL_C
           [ PosixKeys.UP; PosixKeys.ENTER ] 2).
  reflexivity.
Defined.

(** * What the actions print *)

Section ActionLines.
Context {T : Type} {num : PyNum T}.

(** An error text returned by either finance function is one of the four. *)
Lemma error_texts (x r : T) (t : Z) (s : string) :
  calculate_mortgage_payment x r t = Value (ErrorText s)
  \/ calculate_loan_amount x r t = Value (ErrorText s) ->
  s = principal_invalid \/ s = payment_invalid \/ s = rate_invalid
  \/ s = term_invalid.
Proof.
  destruct (checks_in_order x r t) as (C1 & C2 & C3).
  pose proof (payment_past_checks x r t) as NP.
  pose proof (loan_past_checks x r t) as NL.
  destruct (num_leb x (lit 0));
    [destruct (C1 eq_refl) as [P L]
    |destruct (num_ltb r (lit 0));
     [destruct (C2 eq_refl eq_refl) as [P L]
     |destruct (t <=? 0)%Z;
      [destruct (C3 eq_refl eq_refl eq_refl) as [P L]|]]];
    intros [H|H];
    try (rewrite P in H; injection H as <-; tauto);
    try (rewrite L in H; injection H as <-; tauto).
  - exfalso. exact (NP eq_refl eq_refl eq_refl s H).
  - exfalso. exact (NL eq_refl eq_refl eq_refl s H).
Qed.

Lemma payment_action_failed (P rp : T) (t : Z) (s : string) :
  In (Failed s) (monthly_payment_action P rp t) ->
  exists r, calculate_mortgage_payment P r t = Value (ErrorText s).
Proof.
  unfold monthly_payment_action.
  destruct (num_div rp (lit 100)) as [r|e]; cbn [bind].
  - destruct (calculate_mortgage_payment P r t) as [[m|s']|e] eqn:E;
      cbn [bind In]; intro H; decompose [or] H; try discriminate;
      try contradiction.
    exists r. congruence.
  - cbn [In]. intros [H|[]]. discriminate H.
Qed.

Lemma affordable_action_failed (M : T) (d : option T) (rp : T) (t : Z)
    (s : string) :
  In (Failed s) (affordable_price_action M d rp t) ->
  exists r, calculate_loan_amount M r t = Value (ErrorText s).
Proof.
  unfold affordable_price_action.
  destruct (num_div rp (lit 100)) as [r|e]; cbn [bind].
  - destruct (calculate_loan_amount M r t) as [[p|s']|e] eqn:E;
      cbn [bind].
    + destruct (num_div _ _) as [q|e]; cbn [bind].
      * destruct (num_ltb _ _); cbn [In app]; intro H;
          decompose [or] H; try discriminate; contradiction.
      * cbn [In]. intros [H|[]]. discriminate H.
    + cbn [In]. intros [H|[]]. exists r. congruence.
    + cbn [In]. intros [H|[]]. discriminate H.
  - cbn [In]. intros [H|[]]. discriminate H.
Qed.
End ActionLines.

(** X10.  Whenever either action reports a validation failure, the message
    it shows is one of the four error texts, and since every one of them
    already begins with "Error: " the shown line begins with
    "Error: Error: " after the leading newline. *)
Theorem failure_line_repeats_prefix
    (T : Type) (num : PyNum T) (x : T) (deposit : option T)
    (rate_percent : T) (term_years : Z) (s : string) :
  In (Failed s) (monthly_payment_action x rate_percent term_years)
  \/ In (Failed s)
       (affordable_price_action x deposit rate_percent term_years) ->
  (s = principal_invalid \/ s = payment_invalid \/ s = rate_invalid
   \/ s = term_invalid)
  /\ String.prefix (newline ++ "Error: Error: ") (failed_line s) = true.
Proof.
  intro H.
  assert (E : s = principal_invalid \/ s = payment_invalid
              \/ s = rate_invalid \/ s = term_invalid).
  { destruct H as [H|H].
    - destruct (payment_action_failed _ _ _ _ H) as [r Hr].
      apply (error_texts x r term_years s). left. exact Hr.
    - destruct (affordable_action_failed _ _ _ _ _ H) as [r Hr].
      apply (error_texts x r term_years s). right. exact Hr. }
  split; [exact E|].
  destruct E as [->|[->|[->| ->]]]; reflexivity.
Qed.

Lemma failure_line_repeats_prefix_witness :
  (term_invalid = principal_invalid \/ term_invalid = payment_invalid
   \/ term_invalid = rate_invalid \/ term_invalid = term_invalid)
  /\ String.prefix (newline ++ "Error: Error: ") (failed_line term_invalid)
     = true.
Proof.
  apply (failure_line_repeats_prefix Q rational (200000 # 1) None (45 # 10)
           0 term_invalid).
  left. left. reflexivity.
Defined.

Section PaymentActionLines.
Context {T : Type} {num : PyNum T}.

(** What the action prints, by what the function gave. *)
Lemma payment_action_by_result (P rate_percent : T) (t : Z) (r : T) :
  num_div rate_percent (lit 100) = Value r ->
  monthly_payment_action P rate_percent t
  = match calculate_mortgage_payment P r t with
    | Value (Amount m) =>
        [ Text (newline ++ "--- Calculation Result ---");
          Money "Loan Amount:             " P;
          Percent "Annual Interest Rate:    " (num_mul r (lit 100));
          Years "Loan Term:               " t;
          Text rule;
          Money "Estimated Monthly Payment: " m;
          Text (rule ++ newline) ]
    | Value (ErrorText s) => [ Failed s ]
    | Raise e => [ Unexpected e ]
    end.
Proof.
  intro Hr. unfold monthly_payment_action. rewrite Hr. cbn [bind].
  destruct (calculate_mortgage_payment P r t) as [[m|s]|e]; reflexivity.
Qed.
End PaymentActionLines.

(** X11.  On any arithmetic, once the rate in percent is divided by 100:
    when a validation check fails the monthly-payment action prints
    exactly one failure line, carrying the returned error text; when none
    fails it prints either the seven-line result block with the returned
    payment or exactly one unexpected-error line, and no failure line. *)
Theorem payment_action_outcomes
    (T : Type) (num : PyNum T) (P rate_percent : T) (t : Z)
    (annual_rate : T) :
  let printed_lines := monthly_payment_action P rate_percent t in
  let result := calculate_mortgage_payment P annual_rate t in
  let failing :=
    num_leb P (lit 0) || num_ltb annual_rate (lit 0) || (t <=? 0)%Z in
  num_div rate_percent (lit 100) = Value annual_rate ->
  (failing = true ->
     exists s, result = Value (ErrorText s) /\ printed_lines = [ Failed s ])
  /\ (failing = false ->
      (exists m,
         result = Value (Amount m)
         /\ printed_lines
            = [ Text (newline ++ "--- Calculation Result ---");
                Money "Loan Amount:             " P;
                Percent "Annual Interest Rate:    "
                  (num_mul annual_rate (lit 100));
                Years "Loan Term:               " t;
                Text rule;
                Money "Estimated Monthly Payment: " m;
                Text (rule ++ newline) ])
      \/ (exists e,
            result = Raise e /\ printed_lines = [ Unexpected e ])).
Proof.
  intros printed_lines result failing Hr.
  pose proof (payment_action_by_result P rate_percent t annual_rate Hr) as B.
  fold printed_lines in B. fold result in B.
  destruct (checks_in_order P annual_rate t) as (C1 & C2 & C3).
  pose proof (payment_past_checks P annual_rate t) as N.
  subst failing.
  destruct (num_leb P (lit 0)) eqn:E1;
    [|destruct (num_ltb annual_rate (lit 0)) eqn:E2;
      [|destruct (t <=? 0)%Z eqn:E3]]; cbn [orb];
    (split; [intro F | intro F]); try discriminate F.
  - destruct (C1 eq_refl) as [H _]. fold result in H.
    eexists. split; [exact H|]. rewrite B, H. reflexivity.
  - destruct (C2 eq_refl eq_refl) as [H _]. fold result in H.
    eexists. split; [exact H|]. rewrite B, H. reflexivity.
  - destruct (C3 eq_refl eq_refl eq_refl) as [H _]. fold result in H.
    eexists. split; [exact H|]. rewrite B, H. reflexivity.
  - specialize (N eq_refl eq_refl eq_refl). fold result in N.
    rewrite B. destruct result as [[m|s]|e].
    + left. exists m. split; reflexivity.
    + exfalso. exact (N s eq_refl).
    + right. exists e. split; reflexivity.
Qed.

Module NotANumber.
Import Floats.

(** X12.  In binary64 a NaN is not rejected by the validation of either
    function, as the amount or as the rate: with the other inputs passing
    their checks, the result is never an error text. *)
Theorem nan_passes_validation (x r : float) (t : Z) (s : string) :
  (0 < t)%Z ->
  (num_ltb r (lit 0) = false ->
     calculate_mortgage_payment nan r t <> Value (ErrorText s)
     /\ calculate_loan_amount nan r t <> Value (ErrorText s))
  /\ (num_leb x (lit 0) = false ->
     calculate_mortgage_payment x nan t <> Value (ErrorText s)
     /\ calculate_loan_amount x nan t <> Value (ErrorText s)).
Proof.
  intro Ht. apply Z.leb_gt in Ht. split; intro H; split.
  - apply payment_past_checks; [reflexivity|exact H|exact Ht].
  - apply loan_past_checks; [reflexivity|exact H|exact Ht].
  - apply payment_past_checks; [exact H|reflexivity|exact Ht].
  - apply loan_past_checks; [exact H|reflexivity|exact Ht].
Qed.

Lemma nan_passes_validation_witness :
  (num_ltb 0.5%float (lit 0) = false ->
     calculate_mortgage_payment nan 0.5%float 25
     <> Value (ErrorText principal_invalid)
     /\ calculate_loan_amount nan 0.5%float 25
        <> Value (ErrorText principal_invalid))
  /\ (num_leb 1%float (lit 0) = false ->
     calculate_mortgage_payment 1%float nan 25
     <> Value (ErrorText principal_invalid)
     /\ calculate_loan_amount 1%float nan 25
        <> Value (ErrorText principal_invalid)).
Proof.
  apply (nan_passes_validation 1%float 0.5%float 25 principal_invalid).
  reflexivity.
Defined.
End NotANumber.

Module Binary64Edges.
Import Floats.

(** C1, as stated, fails on binary64: with principal 100000.0, the positive
    annual rate 2^-60 and a term of 30 years, [1 + rate / 12] rounds to
    1.0, the denominator [power_of_i - 1] is zero and the division
    raises; no number is returned. *)
Lemma annuity_formula_raises_binary64 :
  let rate := 0x1p-60%float in
  num_ltb (lit 0) 100000%float = true
  /\ num_ltb (lit 0) rate = true
  /\ (0 <? 30)%Z = true
  /\ calculate_mortgage_payment 100000%float rate 30
     = Raise ZeroDivisionError.
Proof. vm_compute. repeat split. Qed.

(** C4, as stated, fails on binary64: at a zero rate and a term of 10^400
    years neither function returns a number, because [t * 12] is too
    large to convert to a float. *)
Lemma zero_rate_overflows_binary64 :
  let years := (10 ^ 400)%Z in
  num_ltb (lit 0) 1%float = true
  /\ (0 <? years)%Z = true
  /\ calculate_mortgage_payment 1%float 0%float years = Raise OverflowError
  /\ calculate_loan_amount 1%float 0%float years = Raise OverflowError.
Proof. vm_compute. repeat split. Qed.

Lemma deposit_division_after_success_witness :
  (affordable_price_action 1110%float (Some 20000%float) 0%float 25
   = [ Unexpected ZeroDivisionError ]
   <-> (333000 + 20000 =? 0)%float = true)
  /\ (forall e,
        affordable_price_action 1110%float (Some 20000%float) 0%float 25
        = [ Unexpected e ] -> e = ZeroDivisionError).
Proof.
  apply (proj1 (proj2 deposit_division_after_success)
           1110%float (Some 20000%float) 0%float 25%Z 333000%float).
  vm_compute. reflexivity.
Defined.

Lemma payment_action_outcomes_witness :
  let annual_rate := (4.5 / 100)%float in
  let printed_lines := monthly_payment_action 200000%float 4.5%float 25 in
  let result := calculate_mortgage_payment 200000%float annual_rate 25 in
  let failing :=
    num_leb 200000%float (lit 0) || num_ltb annual_rate (lit 0)
    || (25 <=? 0)%Z in
  (failing = true ->
     exists s, result = Value (ErrorText s) /\ printed_lines = [ Failed s ])
  /\ (failing = false ->
      (exists m,
         result = Value (Amount m)
         /\ printed_lines
            = [ Text (newline ++ "--- Calculation Result ---");
                Money "Loan Amount:             " 200000%float;
                Percent "Annual Interest Rate:    "
                  (num_mul annual_rate (lit 100));
                Years "Loan Term:               " 25%Z;
                Text rule;
                Money "Estimated Monthly Payment: " m;
                Text (rule ++ newline) ])
      \/ (exists e,
            result = Raise e /\ printed_lines = [ Unexpected e ])).
Proof.
  intro annual_rate.
  apply (payment_action_outcomes float _ 200000%float 4.5%float 25%Z
           annual_rate).
  reflexivity.
Defined.
End Binary64Edges.
